(** * The goods service of the ERP backend

    A shallow embedding of [Service] (the goods service: validation of
    creation candidates, the component existence check, redaction of goods on
    read, archiving, and the single and bulk create operations) and of the
    part of [config] it reads.

    The service takes its inputs as [any]. Values are therefore modelled
    untyped, with the language's own run-time behaviour (a property read on
    [null] or [undefined] and a call of something that is not a function
    raise a [TypeError]) written out. Numbers are IEEE 754 binary64 values,
    as in the language. *)

From Stdlib Require Import Floats.
From stdpp Require Import gmap strings list fin_maps.

Set Warnings "-register-all,-clear-no-such-hyp".
Open Scope string_scope.
Open Scope list_scope.

(** ** Values, exceptions and the language primitives the service uses *)

Module Js.

(** A value: [undefined], [null], a boolean, a number, a string, an array or a
    plain object (a finite map from field names to values). *)
Inductive JsVal : Type :=
| JUndefined
| JNull
| JBool (b : bool)
| JNum (x : float)
| JStr (s : string)
| JArr (l : list JsVal)
| JObj (o : gmap string JsVal).

(** What can be thrown: a [TypeError] raised by the language itself, or an
    [Error] raised by a collaborator. Both carry the text of [e.message]. *)
Inductive Exn : Type :=
| TypeError (message : string)
| Error (message : string).

Definition exn_message (e : Exn) : string :=
  match e with TypeError m | Error m => m end.

(** The completion of an evaluation: a value, or an exception on its way up. *)
Inductive result (A : Type) : Type :=
| Return (a : A)
| Throw (e : Exn).
Arguments Return {A} a.
Arguments Throw {A} e.

#[export] Instance result_ret : MRet result := @Return.
#[export] Instance result_bind : MBind result := λ A B f r,
  match r with Return a => f a | Throw e => Throw e end.

Definition is_Throw {A} (r : result A) : Prop :=
  match r with Throw _ => True | Return _ => False end.

(** [typeof v]. *)
Definition typeof (v : JsVal) : string :=
  match v with
  | JUndefined => "undefined"
  | JNull => "object"
  | JBool _ => "boolean"
  | JNum _ => "number"
  | JStr _ => "string"
  | JArr _ => "object"
  | JObj _ => "object"
  end.

(** Truthiness, as tested by [if (v)] and [v ? a : b]: [undefined], [null],
    [false], [0], [-0], [NaN] and the empty string are falsy. *)
Definition truthy (v : JsVal) : bool :=
  match v with
  | JUndefined | JNull => false
  | JBool b => b
  | JNum x => negb (PrimFloat.eqb x 0 || PrimFloat.is_nan x)
  | JStr s => negb (String.eqb s "")
  | JArr _ | JObj _ => true
  end.

(** [v.k], for the field names the service reads ([name], [type], [cost],
    [processTime], [vendor], [price], [properties], [components], [id],
    [quantity], [value], [archive]): reading from [undefined] or [null]
    throws; an object yields the field or [undefined]; a boolean, a number,
    a string or an array has none of these fields. *)
Definition get (v : JsVal) (k : string) : result JsVal :=
  match v with
  | JUndefined => Throw (TypeError ("Cannot read properties of undefined (reading '" +:+ k +:+ "')"))
  | JNull => Throw (TypeError ("Cannot read properties of null (reading '" +:+ k +:+ "')"))
  | JObj o => Return (default JUndefined (o !! k))
  | JBool _ | JNum _ | JStr _ | JArr _ => Return JUndefined
  end.

(** [undefined] and [null], the two values no field can be read from. *)
Definition is_nullish (v : JsVal) : bool :=
  match v with
  | JUndefined | JNull => true
  | _ => false
  end.

(** [delete v[k]]: removes the field from an object; on any other value
    there is no such field to remove. *)
Definition delete_field (k : string) (v : JsVal) : JsVal :=
  match v with
  | JObj o => JObj (delete k o)
  | _ => v
  end.

(** The receiver [v] of a call [v.forEach(...)] or [v.map(...)], written
    [receiver] in the source: only an array has the method; on [undefined]
    and [null] the read of the method throws, on anything else the method
    is [undefined] and the call throws. The result is the elements the
    callback will be applied to, in order. The texts of the errors are the
    engine's; nothing depends on them. *)
Definition array_method (receiver method : string) (v : JsVal) : result (list JsVal) :=
  match v with
  | JArr l => Return l
  | JUndefined => Throw (TypeError ("Cannot read properties of undefined (reading '" +:+ method +:+ "')"))
  | JNull => Throw (TypeError ("Cannot read properties of null (reading '" +:+ method +:+ "')"))
  | _ => Throw (TypeError (receiver +:+ "." +:+ method +:+ " is not a function"))
  end.

(** [v <= 0] and [v > 0]. The service evaluates them only behind
    [typeof v === 'number'], so [v] is a number wherever they are used (the
    coercion of other operands is not modelled: they compare as [false]).
    Any comparison with [NaN] is false. *)
Definition le_zero (v : JsVal) : bool :=
  match v with JNum x => PrimFloat.leb x 0 | _ => false end.

Definition gt_zero (v : JsVal) : bool :=
  match v with JNum x => PrimFloat.ltb 0 x | _ => false end.

(** [l.includes(v)] for a list of strings [l]: only an equal string is
    included. *)
Definition includes (l : list string) (v : JsVal) : bool :=
  match v with
  | JStr s => existsb (String.eqb s) l
  | _ => false
  end.

(** Applying a callback that may throw to each element in turn, as
    [Array.prototype.map] does: the first exception ends the traversal. *)
Fixpoint map_result {A B} (f : A → result B) (l : list A) : result (list B) :=
  match l with
  | [] => Return []
  | x :: l' => y ← f x; ys ← map_result f l'; Return (y :: ys)
  end.

(** A left-to-right traversal that updates a captured local variable, as
    [Array.prototype.forEach] with a callback assigning to a [let] does. *)
Fixpoint fold_result {A S} (f : S → A → result S) (s : S) (l : list A) : result S :=
  match l with
  | [] => Return s
  | x :: l' => s' ← f s x; fold_result f s' l'
  end.

End Js.
Import Js.

(** ** Configuration *)

Module config.
Module good.
(** [config.good.types] *)
Definition types : list string := ["raw"; "semi-finished"; "finished"].
End good.
End config.

(** ** The synchronous part of the service: validation and redaction *)

(** The three [switch (good.type)] statements of the service have the same
    case labels; the comparison is strict equality with a string literal. *)
Inductive TypeCase : Type := CaseRaw | CaseSemiFinished | CaseFinished | NoCase.

Definition switch_type (t : JsVal) : TypeCase :=
  match t with
  | JStr s =>
      if String.eqb s "raw" then CaseRaw
      else if String.eqb s "semi-finished" then CaseSemiFinished
      else if String.eqb s "finished" then CaseFinished
      else NoCase
  | _ => NoCase
  end.

(** [validateProperties(property)] *)
Definition validateProperties (property : JsVal) : result bool :=
  name ← get property "name";
  if negb (String.eqb (typeof name) "string") then Return false
  else
    value ← get property "value";
    Return (String.eqb (typeof value) "string").

(** [validateComponent(component)] *)
Definition validateComponent (component : JsVal) : result bool :=
  id ← get component "id";
  if negb (String.eqb (typeof id) "number" && gt_zero id) then Return false
  else
    quantity ← get component "quantity";
    Return (String.eqb (typeof quantity) "number" && gt_zero quantity).

(** The block
    [if (field) { let valid = true; field.forEach(x => { if (!validate(x)) valid = false; }); if (!valid) return false; }]
    of [validateGoodFormat]; the result is [false] when the block returns
    [false] and [true] when control goes on past it. *)
Definition validateEntries (receiver : string) (validate : JsVal → result bool)
    (field : JsVal) : result bool :=
  if truthy field then
    entries ← array_method receiver "forEach" field;
    fold_result (λ valid x, ok ← validate x; Return (if negb ok then false else valid))
                true entries
  else Return true.

(** The [switch (good.type)] of [validateGoodFormat]; [false] when it
    returns [false], [true] when control goes on past it. *)
Definition validateTypeFields (good type : JsVal) : result bool :=
  match switch_type type with
  | CaseRaw =>
      vendor ← get good "vendor";
      Return (String.eqb (typeof vendor) "string")
  | CaseSemiFinished => Return true
  | CaseFinished =>
      price ← get good "price";
      Return (negb (negb (String.eqb (typeof price) "number") || le_zero price))
  | NoCase => Return true
  end.

(** [validateGoodFormat(good)]. The four fields tested by the first [if]
    are read from the same value: either the first read throws or none
    does, so the reads are written before the disjunction. *)
Definition validateGoodFormat (good : JsVal) : result bool :=
  name ← get good "name";
  type ← get good "type";
  processTime ← get good "processTime";
  cost ← get good "cost";
  if negb (String.eqb (typeof name) "string")
     || negb (String.eqb (typeof type) "string")
     || negb (String.eqb (typeof processTime) "number")
     || negb (String.eqb (typeof cost) "number")
     || le_zero cost
     || le_zero processTime
     || negb (includes config.good.types type)
  then Return false
  else
    typeOk ← validateTypeFields good type;
    if negb typeOk then Return false
    else
      properties ← get good "properties";
      propertiesOk ← validateEntries "good.properties" validateProperties properties;
      if negb propertiesOk then Return false
      else
        components ← get good "components";
        componentsOk ← validateEntries "good.components" validateComponent components;
        if negb componentsOk then Return false
        else Return true.

(** [cleanUpGood(good)]: the good is changed in place and returned; the
    result is the good as it is after the deletions. *)
Definition cleanUpGood (good : JsVal) : result JsVal :=
  type ← get good "type";
  Return
    match switch_type type with
    | CaseRaw => delete_field "price" good
    | CaseSemiFinished => delete_field "vendor" (delete_field "price" good)
    | CaseFinished => delete_field "vendor" good
    | NoCase => good
    end.

(** [cleanUpMultipleOfGoods(goods)] *)
Definition cleanUpMultipleOfGoods (goods : JsVal) : result JsVal :=
  elements ← array_method "goods" "map" goods;
  cleaned ← map_result cleanUpGood elements;
  Return (JArr cleaned).

(** ** The collaborators and the asynchronous part of the service *)

(** The constructors of [good.models] that [addSingleGood] chooses among. *)
Inductive Model : Type := RawModel | SemiModel | FinishModel.

(** What the service does to its collaborators, in the order it does it:
    the calls to the goods repository and the lines given to the logger. *)
Inductive Event : Type :=
| CallGetAllGoods
| CallFindById (id : JsVal)
| CallGetByType (type : JsVal) (archived : bool)
| CallArchive (id archive : JsVal)
| CallSave (model : Model) (good : JsVal)
| LogInfo (message : string) (tags : list string) (payload : option JsVal)
| LogError (message : string) (tags : list string) (detail : string).

(** The state the service runs against: the repository's contents and the
    record of what has been asked of the collaborators so far. *)
Record World (Db : Type) : Type := { db : Db; trace : list Event }.
Arguments db {Db} w.
Arguments trace {Db} w.

(** What the service takes from outside itself. The goods repository behind
    the models of [good.models] is a parameter: its contents [Db] and, for
    each method the service calls, how the returned promise settles (and,
    for the writing methods, the contents afterwards).
    [new M(good).save()] is one operation, [Model_save M good].
    [NumberToString] is the language's conversion of a number to text, used
    by template literals and [join]. [settle w n] is the order in which [n]
    tasks started together in state [w] come to complete, as indices into
    the sequence of tasks. *)
Class Host : Type := {
  Db : Type;
  GoodModel_getAllGoods : Db → result JsVal;
  GoodModel_findById : JsVal → Db → result JsVal;
  GoodModel_getByType : JsVal → bool → Db → result JsVal;
  GoodModel_archive : JsVal → JsVal → Db → result JsVal * Db;
  Model_save : Model → JsVal → Db → result JsVal * Db;
  NumberToString : float → string;
  settle : World Db → nat → list nat;
}.

(** Every one of the [n] tasks completes, once. *)
Definition settles_all `{Host} : Prop :=
  ∀ (w : World Db) (n : nat), settle w n ≡ₚ seq 0 n.

(** The result envelope [{ status, message, good }]; read and archive
    results have no [good] field. *)
Record Envelope : Type := { status : bool; message : JsVal; good : option JsVal }.

(** *** Computations over a state that may throw *)

Definition M (S A : Type) : Type := S → result A * S.

#[export] Instance M_ret {S} : MRet (M S) := λ A a s, (Return a, s).
#[export] Instance M_bind {S} : MBind (M S) := λ A B f m s,
  match m s with
  | (Return a, s') => f a s'
  | (Throw e, s') => (Throw e, s')
  end.

(** A synchronous evaluation inside a stateful computation. *)
Definition lift {S A} (r : result A) : M S A := λ s, (r, s).

Definition get_state {S} : M S S := λ s, (Return s, s).

(** [try { body } catch (e) { handler }] *)
Definition try_catch {S A} (body : M S A) (handler : Exn → M S A) : M S A := λ s,
  match body s with
  | (Return a, s') => (Return a, s')
  | (Throw e, s') => handler e s'
  end.

(** A computation on the world, run where a local array captured by the
    callbacks is part of the state as well. *)
Definition zoom {S L A} (m : M S A) : M (S * L) A := λ sl,
  match m sl.1 with (r, s') => (r, (s', sl.2)) end.

(** [array.push(x)] on the captured array. *)
Definition push {S A} (x : A) : M (S * list A) () := λ sl,
  (Return (), (sl.1, sl.2 ++ [x])).

(** A block in which a local variable, initialised to [init], is captured
    by the callbacks run in it; the value of the variable at the end is
    returned with the block's own result. *)
Definition with_local {S L A} (init : L) (m : M (S * L) A) : M S (A * L) := λ s,
  match m (s, init) with
  | (Return a, sl) => (Return (a, sl.2), sl.1)
  | (Throw e, sl) => (Throw e, sl.1)
  end.

(** *** [Promise.all] over tasks started together

    Each task is run as one block, the tasks one after another in the order
    in which they complete; the outcome of each is kept with its index. A
    call of a collaborator is therefore recorded where its task completes:
    the record tells which calls were made and how many, not the order in
    which calls of different tasks were started. *)
Fixpoint run_tasks {S A} (tasks : list (M S A)) (order : list nat) (s : S)
  : list (nat * result A) * S :=
  match order with
  | [] => ([], s)
  | i :: order' =>
      match tasks !! i with
      | Some task =>
          match task s with
          | (r, s') =>
              match run_tasks tasks order' s' with
              | (outs, s'') => ((i, r) :: outs, s'')
              end
          end
      | None => run_tasks tasks order' s
      end
  end.

Definition rejection {A} (out : nat * result A) : option Exn :=
  match out.2 with Throw e => Some e | Return _ => None end.

Definition fulfilment {A} (outs : list (nat * result A)) (i : nat) : option A :=
  match (list_to_map outs : gmap nat (result A)) !! i with
  | Some (Return a) => Some a
  | _ => None
  end.

(** [Promise.all(tasks)]: rejected with the first rejection among the
    tasks, otherwise fulfilled with the values in the order of the tasks,
    whatever the order of completion. *)
Definition promise_all {S A} (order : list nat) (tasks : list (M S A)) : M S (list A) := λ s,
  match run_tasks tasks order s with
  | (outs, s') =>
      (match head (omap rejection outs) with
       | Some e => Throw e
       | None => Return (omap (fulfilment outs) (seq 0 (length tasks)))
       end, s')
  end.

Section Service.
Context `{Host}.

(** An asynchronous function of the service: started in one world, settled
    (fulfilled or rejected) in another. *)
Definition Async (A : Type) : Type := M (World Db) A.

Definition record (e : Event) (w : World Db) : World Db :=
  {| db := db w; trace := trace w ++ [e] |}.

Definition emit (e : Event) : Async () := λ w, (Return (), record e w).

(** [await GoodModel.getAllGoods()] and the other repository calls. *)
Definition call_getAllGoods : Async JsVal := λ w,
  (GoodModel_getAllGoods (db w), record CallGetAllGoods w).

Definition call_findById (id : JsVal) : Async JsVal := λ w,
  (GoodModel_findById id (db w), record (CallFindById id) w).

Definition call_getByType (type : JsVal) (archived : bool) : Async JsVal := λ w,
  (GoodModel_getByType type archived (db w), record (CallGetByType type archived) w).

Definition call_archive (id flag : JsVal) : Async JsVal := λ w,
  match GoodModel_archive id flag (db w) with
  | (r, d) => (r, {| db := d; trace := trace w ++ [CallArchive id flag] |})
  end.

Definition call_save (model : Model) (candidate : JsVal) : Async JsVal := λ w,
  match Model_save model candidate (db w) with
  | (r, d) => (r, {| db := d; trace := trace w ++ [CallSave model candidate] |})
  end.

(** The text of a value inside a template literal. *)
Fixpoint ToString (v : JsVal) : string :=
  match v with
  | JUndefined => "undefined"
  | JNull => "null"
  | JBool b => if b then "true" else "false"
  | JNum x => NumberToString x
  | JStr s => s
  | JArr l =>
      String.concat ","
        (map (λ x, match x with JUndefined | JNull => "" | _ => ToString x end) l)
  | JObj _ => "[object Object]"
  end.

(** [l.join(sep)] *)
Definition join (sep : string) (l : list JsVal) : string :=
  String.concat sep
    (map (λ x, match x with JUndefined | JNull => "" | _ => ToString x end) l).

(** [getAllGoods()] *)
Definition getAllGoods : Async Envelope :=
  try_catch
    (goods ← call_getAllGoods;
     cleaned ← lift (cleanUpMultipleOfGoods goods);
     mret {| status := true; message := cleaned; good := None |})
    (λ e,
       emit (LogError "Failed to get all goods" ["good"; "find"; "good"] (exn_message e));;
       mret {| status := false; message := JStr "Failed while getting all goods";
               good := None |}).

(** [getSingleGood(id)] *)
Definition getSingleGood (id : JsVal) : Async Envelope :=
  try_catch
    (found ← call_findById id;
     if truthy found then
       cleaned ← lift (cleanUpGood found);
       mret {| status := true; message := cleaned; good := None |}
     else
       mret {| status := false;
               message := JStr ("Good with id: " +:+ ToString id +:+ " not found");
               good := None |})
    (λ e,
       emit (LogError ("Failed to get good by id with id: " +:+ ToString id)
                      ["good"; "find"; "id"] (exn_message e));;
       mret {| status := false;
               message := JStr ("Failed while getting good with id " +:+ ToString id);
               good := None |}).

(** [getAllGoodsOfType(type)] *)
Definition getAllGoodsOfType (type : JsVal) : Async Envelope :=
  try_catch
    (goods ← call_getByType type false;
     cleaned ← lift (cleanUpMultipleOfGoods goods);
     mret {| status := true; message := cleaned; good := None |})
    (λ e,
       emit (LogError ("Failed to get goods by type with type: " +:+ ToString type)
                      ["good"; "find"; "type"] (exn_message e));;
       mret {| status := false;
               message := JStr ("Failed while getting goods with type " +:+ ToString type);
               good := None |}).

(** [getAllArchivedGoodsOfType(type)] *)
Definition getAllArchivedGoodsOfType (type : JsVal) : Async Envelope :=
  try_catch
    (goods ← call_getByType type true;
     cleaned ← lift (cleanUpMultipleOfGoods goods);
     mret {| status := true; message := cleaned; good := None |})
    (λ e,
       emit (LogError ("Failed to get archived goods by type with type: " +:+ ToString type)
                      ["good"; "find"; "type"; "archive"] (exn_message e));;
       mret {| status := false;
               message := JStr ("Failed while getting archived goods with type "
                                +:+ ToString type);
               good := None |}).

(** [archive ? 'archive' : 'un-archive'] *)
Definition direction (flag : JsVal) : string :=
  if truthy flag then "archive" else "un-archive".

(** [archiveGood(id, archive)] *)
Definition archiveGood (id flag : JsVal) : Async Envelope :=
  try_catch
    (changed ← call_archive id flag;
     if truthy changed then
       emit (LogInfo (direction flag +:+ " successfull for good with id: " +:+ ToString id)
                     ["good"; "archive"] None);;
       mret {| status := true;
               message := JStr (direction flag +:+ " successfull for good with id: "
                                +:+ ToString id);
               good := None |}
     else
       mret {| status := false;
               message := JStr ("Failed to " +:+ direction flag +:+ " good with id "
                                +:+ ToString id +:+ ", good not found");
               good := None |})
    (λ e,
       emit (LogError ("Failed to " +:+ direction flag +:+ " good with id: " +:+ ToString id)
                      ["good"; "archive"] (exn_message e));;
       mret {| status := false;
               message := JStr ("Failed to " +:+ direction flag +:+ " good with id "
                                +:+ ToString id);
               good := None |}).

(** [archiveMultipleGoods(goods)] *)
Definition archiveMultipleGoods (goods : JsVal) : Async (list Envelope) :=
  entries ← lift (array_method "goods" "map" goods);
  w ← get_state;
  promise_all (settle w (length entries))
    (map (λ entry,
            id ← lift (get entry "id");
            flag ← lift (get entry "archive");
            archiveGood id flag)
         entries).

(** The callback of [checkIfComponentExists],
    [async id => { const c = await this.getSingleGood(id); if (!c.status) invalidComponents.push(id); }],
    with the captured array [invalidComponents] as part of its state. *)
Definition check_task (id : JsVal) : M (World Db * list JsVal) () :=
  c ← zoom (getSingleGood id);
  if negb (status c) then push id else mret ().

(** [checkIfComponentExists(components)]: the callbacks share the array
    [invalidComponents] and push to it as they complete. *)
Definition checkIfComponentExists (components : JsVal) : Async (list JsVal) :=
  elements ← lift (array_method "components" "map" components);
  onlyId ← lift (map_result (λ c, get c "id") elements);
  w ← get_state;
  settled ← with_local [] (promise_all (settle w (length onlyId)) (map check_task onlyId));
  mret settled.2.

(** The last stage of [addSingleGood]: the [try] block that saves the good
    through the model of its type, and its [catch]. *)
Definition saveGood (good : JsVal) : Async Envelope :=
  try_catch
    (type ← lift (get good "type");
     match switch_type type with
     | CaseRaw => call_save RawModel good;; mret ()
     | CaseSemiFinished => call_save SemiModel good;; mret ()
     | CaseFinished => call_save FinishModel good;; mret ()
     | NoCase => mret ()
     end;;
     emit (LogInfo "Successfully saved new good" ["good"; "save"; "success"]
                   (Some good));;
     mret {| status := true; message := JStr "Successfully saved new good";
             good := Some good |})
    (λ e,
       emit (LogError "Failed while attempting to save good"
                      ["good"; "save"; "failed"] (exn_message e));;
       mret {| status := false; message := JStr "Failed while saving good";
               good := Some good |}).

(** [addSingleGood(good)] *)
Definition addSingleGood (good : JsVal) : Async Envelope :=
  valid ← lift (validateGoodFormat good);
  if negb valid then
    mret {| status := false; message := JStr "Failed while validating good";
            good := Some good |}
  else
    components ← lift (get good "components");
    missing ←
      (if truthy components then
         notExist ← checkIfComponentExists components;
         if bool_decide (0 < length notExist) then
           mret (Some {| status := false;
                         message := JStr ("Failed to save component: "
                                          +:+ join ", " notExist +:+ " does not exist");
                         good := Some good |})
         else mret None
       else mret None);
    match missing with
    | Some failure => mret failure
    | None => saveGood good
    end.

(** [addBulkGoods(goods)] *)
Definition addBulkGoods (goods : JsVal) : Async (list Envelope) :=
  elements ← lift (array_method "goods" "map" goods);
  w ← get_state;
  promise_all (settle w (length elements)) (map addSingleGood elements).

End Service.

(** ** Sample data and stand-ins for the collaborators *)

(** An object literal. *)
Definition obj (fields : list (string * JsVal)) : JsVal :=
  JObj (list_to_map fields).

(** Modelled from the spec: the goods repository, which the service only
    calls. After the repository interface of the specification, a lookup by
    id yields a good or nothing, or fails with an error, and a write settles
    or fails. This stand-in answers [GoodModel_findById] from a fixed table,
    settles every write as [written] and stores nothing; numbers print as
    ["#"]; tasks started together complete in the order [order] gives. *)
Definition tableHost (rows : JsVal → result JsVal) (written : result JsVal)
    (order : nat → list nat) : Host := {|
  Db := ();
  GoodModel_getAllGoods := λ _, Return (JArr []);
  GoodModel_findById := λ id _, rows id;
  GoodModel_getByType := λ _ _ _, Return (JArr []);
  GoodModel_archive := λ _ _ d, (written, d);
  Model_save := λ _ _ d, (written, d);
  NumberToString := λ _, "#";
  settle := λ _ n, order n;
|}.

(** The world before anything was asked of the stand-in. *)
Definition start : World () := {| db := (); trace := [] |}.

(** The table in which the good 7 exists and nothing else does. *)
Definition only7 (id : JsVal) : result JsVal :=
  match id with
  | JNum x =>
      if PrimFloat.eqb x 7
      then Return (obj [("id", JNum 7); ("name", JStr "Bolt"); ("type", JStr "raw");
                        ("cost", JNum 2); ("processTime", JNum 1);
                        ("vendor", JStr "Acme"); ("price", JNum 3)])
      else Return JUndefined
  | _ => Return JUndefined
  end.

(** The table of a repository that cannot be reached. *)
Definition unreachable (id : JsVal) : result JsVal :=
  Throw (Error "connect ECONNREFUSED").

(** The table of an empty repository. *)
Definition nothing (id : JsVal) : result JsVal := Return JUndefined.

Definition steelRod : JsVal :=
  obj [("name", JStr "Steel Rod"); ("type", JStr "raw"); ("cost", JNum 5);
       ("processTime", JNum 1); ("vendor", JStr "Acme")].

Definition component (id quantity : float) : JsVal :=
  obj [("id", JNum id); ("quantity", JNum quantity)].

(** A candidate that is well formed but for its empty name. *)
Definition unnamed : JsVal :=
  obj [("name", JStr ""); ("type", JStr "semi-finished"); ("cost", JNum 1);
       ("processTime", JNum 1)].

(** A candidate whose [properties] field is present and is not a sequence. *)
Definition badProperties : JsVal :=
  obj [("name", JStr "Frame"); ("type", JStr "semi-finished"); ("cost", JNum 1);
       ("processTime", JNum 1); ("properties", JNum 5)].

(** A finished candidate whose price is the number [NaN]. *)
Definition nanPrice : JsVal :=
  obj [("name", JStr "Bike"); ("type", JStr "finished"); ("cost", JNum 1);
       ("processTime", JNum 1); ("price", JNum nan)].

(** A candidate that is well formed but for its cost. *)
Definition freeRod : JsVal :=
  obj [("name", JStr "Steel Rod"); ("type", JStr "raw"); ("cost", JNum 0);
       ("processTime", JNum 1); ("vendor", JStr "Acme")].

(** Well-formed candidates of the two other types, as maps of fields; the
    finished one has properties and components. *)
Definition frameFields : gmap string JsVal :=
  list_to_map [("name", JStr "Frame"); ("type", JStr "semi-finished");
               ("cost", JNum 12); ("processTime", JNum 3)].

Definition bikeFields : gmap string JsVal :=
  list_to_map [("name", JStr "Bike"); ("type", JStr "finished"); ("cost", JNum 80);
               ("processTime", JNum 6); ("price", JNum 250);
               ("properties", JArr [obj [("name", JStr "colour"); ("value", JStr "red")]]);
               ("components", JArr [obj [("id", JNum 7); ("quantity", JNum 2)]])].

Definition rodFields : gmap string JsVal :=
  list_to_map [("name", JStr "Steel Rod"); ("type", JStr "raw"); ("cost", JNum 5);
               ("processTime", JNum 1); ("vendor", JStr "Acme")].

(** A raw good as the repository holds it, with a price. *)
Definition boltFields : gmap string JsVal :=
  list_to_map [("id", JNum 7); ("name", JStr "Bolt"); ("type", JStr "raw");
               ("cost", JNum 2); ("processTime", JNum 1);
               ("vendor", JStr "Acme"); ("price", JNum 3)].

(** A good of a type the service does not know. *)
Definition serviceGood : JsVal :=
  obj [("id", JNum 8); ("name", JStr "Delivery"); ("type", JStr "service");
       ("vendor", JStr "Acme"); ("price", JNum 3)].

(** The stand-ins used below: a repository holding the good 7 only, an
    empty one, and one that cannot be reached, with tasks completing in the
    order they were started; and an empty one with tasks completing in the
    reverse order. *)
Definition hostEmptyReversed : Host :=
  tableHost nothing (Return JUndefined) (λ n, reverse (seq 0 n)).
Definition host7 : Host := tableHost only7 (Return JUndefined) (seq 0).
Definition hostEmpty : Host := tableHost nothing (Return JUndefined) (seq 0).
Definition hostDown : Host := tableHost unreachable (Throw (Error "connect ECONNREFUSED")) (seq 0).

(** ** What the specification says, in its own words *)

(** The fields the specification has redaction remove, per type. *)
Definition redacted_fields (type : string) : list string :=
  if String.eqb type "raw" then ["price"]
  else if String.eqb type "semi-finished" then ["price"; "vendor"]
  else if String.eqb type "finished" then ["vendor"]
  else [].

(** A well-formed creation candidate, after the data model of the
    specification: textual [name], positive [cost] and [processTime], one
    of the three types with the field that type requires, and, when
    present, sequences of well-formed properties and component references. *)
Definition text (v : option JsVal) : Prop := ∃ s, v = Some (JStr s).

Definition positive (v : option JsVal) : Prop :=
  ∃ x, v = Some (JNum x) ∧ PrimFloat.ltb 0 x = true.

Definition sequence_of (P : JsVal → Prop) (v : option JsVal) : Prop :=
  v = None ∨ ∃ l, v = Some (JArr l) ∧ Forall P l.

Definition well_formed_property (p : JsVal) : Prop :=
  ∃ o, p = JObj o ∧ text (o !! "name") ∧ text (o !! "value").

Definition well_formed_component (c : JsVal) : Prop :=
  ∃ o, c = JObj o ∧ positive (o !! "id") ∧ positive (o !! "quantity").

Definition well_formed_candidate (o : gmap string JsVal) : Prop :=
  text (o !! "name")
  ∧ positive (o !! "cost")
  ∧ positive (o !! "processTime")
  ∧ (∃ t, o !! "type" = Some (JStr t) ∧ t ∈ config.good.types
          ∧ (t = "raw" → text (o !! "vendor"))
          ∧ (t = "finished" → positive (o !! "price")))
  ∧ sequence_of well_formed_property (o !! "properties")
  ∧ sequence_of well_formed_component (o !! "components").

(** The candidates validation has to reject: a cost or a process time at
    or below zero, a type outside the three, a raw candidate whose vendor is
    not text, a finished candidate whose price is not a number or is at or
    below zero. *)
Definition ill_formed_candidate (good : JsVal) : Prop :=
  (∃ cost, get good "cost" = Return cost ∧ le_zero cost = true)
  ∨ (∃ processTime, get good "processTime" = Return processTime
                    ∧ le_zero processTime = true)
  ∨ (∃ type, get good "type" = Return type
             ∧ ∀ s, s ∈ config.good.types → type ≠ JStr s)
  ∨ (get good "type" = Return (JStr "raw")
     ∧ ∃ vendor, get good "vendor" = Return vendor ∧ ∀ s, vendor ≠ JStr s)
  ∨ (get good "type" = Return (JStr "finished")
     ∧ ∃ price, get good "price" = Return price
                ∧ ((∀ x, price ≠ JNum x) ∨ le_zero price = true)).

(** A field that is falsy, or a sequence of entries none of which is
    [undefined] or [null], is checked without an exception. *)
Definition checkable (field : JsVal) : Prop :=
  truthy field = false ∨ ∃ l, field = JArr l ∧ Forall (λ x, is_nullish x = false) l.

(** A good whose [type] field is none of the three recognised ones. *)
Definition unknown_type (g : JsVal) : Prop :=
  ∃ t, get g "type" = Return t ∧ ∀ s, s ∈ config.good.types → t ≠ JStr s.

(** The ids the repository was asked to look up, in the order it was asked. *)
Definition lookups (t : list Event) : list JsVal :=
  omap (λ e, match e with CallFindById id => Some id | _ => None end) t.

(** How the lookup of an id can fail to produce a good: the repository
    finds none (the promise is fulfilled with a falsy value), or the
    repository fails (the promise is rejected). *)
Definition not_found `{Host} (d : Db) (id : JsVal) : Prop :=
  ∃ g, GoodModel_findById id d = Return g ∧ truthy g = false.

Definition lookup_error `{Host} (d : Db) (id : JsVal) : Prop :=
  ∃ e, GoodModel_findById id d = Throw e.

(** The lookup of [id] is answered, and with no good. *)
Definition missing `{Host} (d : Db) (id : JsVal) : bool :=
  match GoodModel_findById id d with
  | Return g => negb (truthy g)
  | Throw _ => false
  end.

(** The ids of the references, in the order in which their lookups
    complete. *)
Definition in_completion_order `{Host} (w : World Db) (ids : list JsVal) : list JsVal :=
  omap (ids !!.) (settle w (length ids)).

(** The lookup of [id] does not produce a good, one way or the other. *)
Definition unresolved `{Host} (d : Db) (id : JsVal) : bool :=
  match GoodModel_findById id d with
  | Return g => negb (truthy g)
  | Throw _ => true
  end.

(** ** What the code accepts, reads and writes *)

(** A property and a component reference as [validateProperties] and
    [validateComponent] accept them. *)
Definition property_accepted (p : JsVal) : Prop :=
  ∃ name value, get p "name" = Return (JStr name) ∧ get p "value" = Return (JStr value).

Definition component_accepted (c : JsVal) : Prop :=
  ∃ id quantity,
    get c "id" = Return (JNum id) ∧ get c "quantity" = Return (JNum quantity)
    ∧ PrimFloat.ltb 0 id = true ∧ PrimFloat.ltb 0 quantity = true.

(** A field that passes the scan of its entries: it is falsy, and then not
    looked into, or it is a sequence whose entries are all accepted. *)
Definition scanned (entry_accepted : JsVal → Prop) (field : JsVal) : Prop :=
  truthy field = false ∨ ∃ l, field = JArr l ∧ Forall entry_accepted l.

(** A candidate as [validateGoodFormat] accepts it, test by test. *)
Definition accepted_candidate (good : JsVal) : Prop :=
  ∃ name type processTime cost properties components,
    get good "name" = Return (JStr name)
    ∧ get good "type" = Return (JStr type)
    ∧ get good "processTime" = Return (JNum processTime)
    ∧ get good "cost" = Return (JNum cost)
    ∧ PrimFloat.leb cost 0 = false
    ∧ PrimFloat.leb processTime 0 = false
    ∧ type ∈ config.good.types
    ∧ (type = "raw" → ∃ vendor, get good "vendor" = Return (JStr vendor))
    ∧ (type = "finished" →
       ∃ price, get good "price" = Return (JNum price) ∧ PrimFloat.leb price 0 = false)
    ∧ get good "properties" = Return properties
    ∧ scanned property_accepted properties
    ∧ get good "components" = Return components
    ∧ scanned component_accepted components.

(** The fields [validateGoodFormat] reads whatever the type of the candidate;
    [vendor] is read for a raw candidate only and [price] for a finished one. *)
Definition common_fields : list string :=
  ["name"; "type"; "processTime"; "cost"; "properties"; "components"].

(** Two objects that [validateGoodFormat] cannot tell apart. *)
Definition same_for_validation (o1 o2 : gmap string JsVal) : Prop :=
  (∀ k, k ∈ common_fields → o1 !! k = o2 !! k)
  ∧ (o1 !! "type" = Some (JStr "raw") → o1 !! "vendor" = o2 !! "vendor")
  ∧ (o1 !! "type" = Some (JStr "finished") → o1 !! "price" = o2 !! "price").

(** The events that change the repository. *)
Definition is_write (e : Event) : bool :=
  match e with
  | CallArchive _ _ | CallSave _ _ => true
  | _ => false
  end.

(** The goods the repository was asked to save, with the model used. *)
Definition saves (t : list Event) : list (Model * JsVal) :=
  omap (λ e, match e with CallSave m g => Some (m, g) | _ => None end) t.

(** The lines given to the logger at level error. *)
Definition error_logs (t : list Event) : list string :=
  omap (λ e, match e with LogError m _ _ => Some m | _ => None end) t.

(** The model [addSingleGood] saves a good of a given type through. *)
Definition model_of (c : TypeCase) : option Model :=
  match c with
  | CaseRaw => Some RawModel
  | CaseSemiFinished => Some SemiModel
  | CaseFinished => Some FinishModel
  | NoCase => None
  end.

(** ** Facts about the language primitives *)

Lemma bind_Return {A B} (a : A) (f : A → result B) : (Return a ≫= f) = f a.
Proof. reflexivity. Qed.

Lemma bind_Throw {A B} (e : Exn) (f : A → result B) : (Throw e ≫= f) = Throw e.
Proof. reflexivity. Qed.

Lemma typeof_string v : String.eqb (typeof v) "string" = true ↔ ∃ s, v = JStr s.
Proof.
  split.
  - destruct v; simpl; try discriminate. eauto.
  - intros [s ->]. reflexivity.
Qed.

Lemma typeof_number v : String.eqb (typeof v) "number" = true ↔ ∃ x, v = JNum x.
Proof.
  split.
  - destruct v; simpl; try discriminate. eauto.
  - intros [x ->]. reflexivity.
Qed.

(** A number above zero is not at or below zero. *)
Lemma positive_not_le_zero x : PrimFloat.ltb 0 x = true → PrimFloat.leb x 0 = false.
Proof.
  rewrite ltb_spec, leb_spec. unfold SFltb, SFleb.
  change (Prim2SF 0) with (S754_zero false).
  destruct (Prim2SF x) as [sign|sign| |sign m e]; simpl; try congruence;
    destruct sign; simpl; congruence.
Qed.

(** A read that returns tells that every read of the same value returns. *)
Lemma get_total g k v k' : get g k = Return v → ∃ v', get g k' = Return v'.
Proof. destruct g; simpl; intros; try discriminate; eauto. Qed.

Lemma get_delete_field_ne g k k' : k ≠ k' → get (delete_field k g) k' = get g k'.
Proof.
  intros Hne. destruct g; simpl; try reflexivity.
  by rewrite lookup_delete_ne.
Qed.

Lemma switch_type_cases t :
  match switch_type t with
  | CaseRaw => t = JStr "raw"
  | CaseSemiFinished => t = JStr "semi-finished"
  | CaseFinished => t = JStr "finished"
  | NoCase => ∀ s, s ∈ config.good.types → t ≠ JStr s
  end.
Proof.
  destruct t as [| | | |s| |]; simpl; try (intros; discriminate).
  destruct (String.eqb_spec s "raw") as [->|Hraw]; [done|].
  destruct (String.eqb_spec s "semi-finished") as [->|Hsemi]; [done|].
  destruct (String.eqb_spec s "finished") as [->|Hfin]; [done|].
  intros s' Hs' [= ->]. unfold config.good.types in Hs'.
  set_solver.
Qed.

Lemma switch_type_NoCase t :
  (∀ s, s ∈ config.good.types → t ≠ JStr s) → switch_type t = NoCase.
Proof.
  intros Hout. pose proof (switch_type_cases t) as Hc.
  destruct (switch_type t); try reflexivity; exfalso;
    eapply Hout; try exact Hc; unfold config.good.types; set_solver.
Qed.

Lemma includes_types t :
  includes config.good.types t = true ↔ ∃ s, t = JStr s ∧ s ∈ config.good.types.
Proof.
  unfold includes. split.
  - destruct t as [| | | |s| |]; try discriminate. intros Hex.
    exists s. split; [done|]. apply existsb_exists in Hex as (s' & Hin & Heq).
    apply String.eqb_eq in Heq as ->. by apply list_elem_of_In.
  - intros (s & -> & Hin). apply existsb_exists. exists s.
    split; [by apply list_elem_of_In | apply String.eqb_refl].
Qed.

(** ** Redaction *)

(** Two objects built by deletions are equal when they agree field by field. *)
Ltac same_fields :=
  apply map_eq; intros ?; rewrite ?lookup_delete; repeat case_decide; congruence.

Lemma cleanUpGood_object o t :
  o !! "type" = Some t →
  cleanUpGood (JObj o) =
    Return (JObj match switch_type t with
                 | CaseRaw => delete "price" o
                 | CaseSemiFinished => delete "vendor" (delete "price" o)
                 | CaseFinished => delete "vendor" o
                 | NoCase => o
                 end).
Proof.
  intros Ht. unfold cleanUpGood. simpl. rewrite Ht. simpl.
  by destruct (switch_type t).
Qed.

(** C5: for a good of type raw, semi-finished or finished, [cleanUpGood]
    returns the good without the fields the specification lists for that
    type ([price]; [price] and [vendor]; [vendor]) and with every other
    field as it was. *)
Theorem cleanUpGood_removes_exactly (o : gmap string JsVal) (type : string) :
  o !! "type" = Some (JStr type) →
  type ∈ config.good.types →
  ∃ o', cleanUpGood (JObj o) = Return (JObj o')
        ∧ (∀ k, k ∈ redacted_fields type → o' !! k = None)
        ∧ (∀ k, k ∉ redacted_fields type → o' !! k = o !! k).
Proof.
  intros Ht Hin. rewrite (cleanUpGood_object o _ Ht).
  unfold config.good.types in Hin.
  assert (type = "raw" ∨ type = "semi-finished" ∨ type = "finished")
    as [-> | [-> | ->]] by set_solver;
    simpl; eexists; (split; [reflexivity|]); split; intros k Hk.
  - assert (k = "price") as -> by set_solver. apply lookup_delete_eq.
  - apply lookup_delete_ne. set_solver.
  - assert (k = "price" ∨ k = "vendor") as [-> | ->] by set_solver.
    + rewrite lookup_delete_ne by done. apply lookup_delete_eq.
    + apply lookup_delete_eq.
  - rewrite !lookup_delete_ne; set_solver.
  - assert (k = "vendor") as -> by set_solver. apply lookup_delete_eq.
  - apply lookup_delete_ne. set_solver.
Qed.

(** C7: redacting the good that redaction returned changes nothing. *)
Theorem cleanUpGood_idempotent (g : JsVal) :
  (cleanUpGood g ≫= cleanUpGood) = cleanUpGood g.
Proof.
  unfold cleanUpGood at 2 3.
  destruct (get g "type") as [t|e] eqn:Ht; [|reflexivity].
  rewrite !bind_Return. unfold cleanUpGood.
  pose proof (switch_type_cases t) as Hc.
  destruct (switch_type t) eqn:Hsw; subst.
  - rewrite get_delete_field_ne, Ht by done. rewrite bind_Return, Hsw.
    f_equal. destruct g; simpl; try reflexivity. f_equal. same_fields.
  - rewrite !get_delete_field_ne, Ht by done. rewrite bind_Return, Hsw.
    f_equal. destruct g; simpl; try reflexivity. f_equal. same_fields.
  - rewrite get_delete_field_ne, Ht by done. rewrite bind_Return, Hsw.
    f_equal. destruct g; simpl; try reflexivity. f_equal. same_fields.
  - rewrite Ht, bind_Return, Hsw. reflexivity.
Qed.

Lemma cleanUpGood_unknown g : unknown_type g → cleanUpGood g = Return g.
Proof.
  intros (t & Ht & Hout). unfold cleanUpGood.
  by rewrite Ht, bind_Return, switch_type_NoCase.
Qed.

Lemma cleanUpMultipleOfGoods_unknown gs :
  Forall unknown_type gs → cleanUpMultipleOfGoods (JArr gs) = Return (JArr gs).
Proof.
  intros Hall. unfold cleanUpMultipleOfGoods. simpl.
  assert (map_result cleanUpGood gs = Return gs) as ->; [|reflexivity].
  induction Hall as [|g gs Hg _ IH]; simpl; [reflexivity|].
  by rewrite cleanUpGood_unknown, bind_Return, IH.
Qed.

(** ** Validation *)

(** The first [if] of [validateGoodFormat], once the four fields are read. *)
Lemma validateGoodFormat_first_check good name type processTime cost :
  get good "name" = Return name →
  get good "type" = Return type →
  get good "processTime" = Return processTime →
  get good "cost" = Return cost →
  negb (String.eqb (typeof name) "string")
  || negb (String.eqb (typeof type) "string")
  || negb (String.eqb (typeof processTime) "number")
  || negb (String.eqb (typeof cost) "number")
  || le_zero cost
  || le_zero processTime
  || negb (includes config.good.types type) = true →
  validateGoodFormat good = Return false.
Proof.
  intros Hname Htype Hpt Hcost Hcond. unfold validateGoodFormat.
  rewrite Hname, Htype, Hpt, Hcost, !bind_Return, Hcond. reflexivity.
Qed.

(** The four reads of the first [if], from any one read that returns. *)
Ltac read_fields good H :=
  let name := fresh "name" in
  let type := fresh "type" in
  let processTime := fresh "processTime" in
  let cost := fresh "cost" in
  destruct (get_total good _ _ "name" H) as [name ?];
  destruct (get_total good _ _ "type" H) as [type ?];
  destruct (get_total good _ _ "processTime" H) as [processTime ?];
  destruct (get_total good _ _ "cost" H) as [cost ?];
  repeat match goal with
         | H1 : get good ?k = Return ?a, H2 : get good ?k = Return ?b |- _ =>
             assert (b = a) by congruence; first [subst b | subst a]; clear H2
         end.

Lemma validateGoodFormat_rejects_name good name :
  get good "name" = Return name →
  String.eqb (typeof name) "string" = false →
  validateGoodFormat good = Return false.
Proof.
  intros Hget Hty. read_fields good Hget.
  eapply validateGoodFormat_first_check; eauto. by rewrite Hty.
Qed.

Lemma validateGoodFormat_rejects_cost good cost :
  get good "cost" = Return cost →
  String.eqb (typeof cost) "number" = false ∨ le_zero cost = true →
  validateGoodFormat good = Return false.
Proof.
  intros Hget Hbad. read_fields good Hget.
  eapply validateGoodFormat_first_check; eauto.
  destruct Hbad as [-> | ->]; simpl; by rewrite ?orb_true_r.
Qed.

Lemma validateGoodFormat_rejects_processTime good processTime :
  get good "processTime" = Return processTime →
  String.eqb (typeof processTime) "number" = false ∨ le_zero processTime = true →
  validateGoodFormat good = Return false.
Proof.
  intros Hget Hbad. read_fields good Hget.
  eapply validateGoodFormat_first_check; eauto.
  destruct Hbad as [-> | ->]; simpl; by rewrite ?orb_true_r.
Qed.

Lemma validateGoodFormat_rejects_type good type :
  get good "type" = Return type →
  (∀ s, s ∈ config.good.types → type ≠ JStr s) →
  validateGoodFormat good = Return false.
Proof.
  intros Hget Hout. read_fields good Hget.
  eapply validateGoodFormat_first_check; eauto.
  destruct (includes config.good.types type) eqn:Hin.
  - apply includes_types in Hin as (s & -> & Hs). by destruct (Hout s Hs).
  - simpl. by rewrite ?orb_true_r.
Qed.

(** Past the first [if]: the type-specific check. *)
Lemma validateGoodFormat_type_fields good type :
  get good "type" = Return type →
  validateTypeFields good type = Return false →
  validateGoodFormat good = Return false.
Proof.
  intros Htype Hfields. read_fields good Htype.
  unfold validateGoodFormat.
  repeat match goal with Hg : get good _ = Return _ |- _ => rewrite Hg; clear Hg end.
  rewrite !bind_Return.
  match goal with |- (if ?c then _ else _) = _ => destruct c end; [reflexivity|].
  by rewrite Hfields.
Qed.

Lemma validateGoodFormat_rejects_raw_vendor good vendor :
  get good "type" = Return (JStr "raw") →
  get good "vendor" = Return vendor →
  String.eqb (typeof vendor) "string" = false →
  validateGoodFormat good = Return false.
Proof.
  intros Htype Hvendor Hty. apply (validateGoodFormat_type_fields good _ Htype).
  unfold validateTypeFields. simpl. by rewrite Hvendor, bind_Return, Hty.
Qed.

Lemma validateGoodFormat_rejects_finished_price good price :
  get good "type" = Return (JStr "finished") →
  get good "price" = Return price →
  String.eqb (typeof price) "number" = false ∨ le_zero price = true →
  validateGoodFormat good = Return false.
Proof.
  intros Htype Hprice Hbad. apply (validateGoodFormat_type_fields good _ Htype).
  unfold validateTypeFields. simpl. rewrite Hprice, bind_Return.
  destruct Hbad as [-> | ->]; simpl; by rewrite ?orb_true_r.
Qed.

(** C1: a candidate whose [name] is not a text value is rejected: whatever
    else it holds, [validateGoodFormat] returns [false]. *)
Theorem validateGoodFormat_name_not_text (good name : JsVal) :
  get good "name" = Return name →
  (∀ s, name ≠ JStr s) →
  validateGoodFormat good = Return false.
Proof.
  intros Hget Hnot. apply (validateGoodFormat_rejects_name good name Hget).
  destruct (String.eqb (typeof name) "string") eqn:Hty; [|reflexivity].
  apply typeof_string in Hty as [s ->]. by destruct (Hnot s).
Qed.

Lemma validateGoodFormat_name_not_text_witness :
  validateGoodFormat (obj [("name", JNum 3); ("type", JStr "raw"); ("cost", JNum 5);
                           ("processTime", JNum 1); ("vendor", JStr "Acme")])
  = Return false.
Proof.
  apply (validateGoodFormat_name_not_text _ (JNum 3)).
  - vm_compute. reflexivity.
  - intros s. discriminate.
Defined.

(** C1, as the specification has it: a candidate with the empty name, well
    formed otherwise, is accepted, so not every candidate whose name is not a
    non-empty text is rejected. *)
Lemma validateGoodFormat_accepts_empty_name :
  ¬ (∀ good name : JsVal,
       get good "name" = Return name →
       ¬ (∃ s, name = JStr s ∧ s ≠ "") →
       validateGoodFormat good = Return false).
Proof.
  intros Hclaim.
  assert (validateGoodFormat unnamed = Return false) as Hfalse.
  { apply (Hclaim unnamed (JStr "")).
    - vm_compute. reflexivity.
    - intros (s & [= <-] & Hne). by apply Hne. }
  vm_compute in Hfalse. discriminate.
Qed.

(** C2: on a candidate whose [properties] field is the number 5,
    [validateGoodFormat] throws a [TypeError] instead of returning, and
    [addSingleGood], which calls it outside its [try], is rejected with
    that error instead of being fulfilled with a failure envelope. *)
Theorem validateGoodFormat_throws_on_non_sequence :
  validateGoodFormat badProperties = Throw (TypeError "good.properties.forEach is not a function")
  ∧ ∀ (host : Host) (w : World Db),
      addSingleGood badProperties w = (Throw (TypeError "good.properties.forEach is not a function"), w).
Proof.
  assert (validateGoodFormat badProperties
          = Throw (TypeError "good.properties.forEach is not a function")) as Hthrow
    by (vm_compute; reflexivity).
  split; [exact Hthrow|].
  intros host w. unfold addSingleGood, mbind, M_bind, lift. by rewrite Hthrow.
Qed.

(** C6: a finished candidate whose price is [NaN] has no positive price,
    and is accepted all the same: [NaN] is a number and [NaN <= 0] is false,
    so the test of the price lets it pass. *)
Theorem validateGoodFormat_accepts_nan_price :
  get nanPrice "type" = Return (JStr "finished")
  ∧ get nanPrice "price" = Return (JNum nan)
  ∧ gt_zero (JNum nan) = false
  ∧ validateGoodFormat nanPrice = Return true.
Proof. repeat split; vm_compute; reflexivity. Qed.

Lemma validateProperties_well_formed p :
  well_formed_property p → validateProperties p = Return true.
Proof.
  intros (o & -> & [n Hn] & [v Hv]). unfold validateProperties. simpl.
  by rewrite Hn, Hv.
Qed.

Lemma validateComponent_well_formed c :
  well_formed_component c → validateComponent c = Return true.
Proof.
  intros (o & -> & (id & Hid & Hidpos) & (q & Hq & Hqpos)).
  unfold validateComponent. simpl. rewrite Hid, Hq. simpl.
  by rewrite Hidpos, Hqpos.
Qed.

Lemma validateEntries_well_formed receiver validate (P : JsVal → Prop) field :
  (∀ x, P x → validate x = Return true) →
  sequence_of P field →
  validateEntries receiver validate (default JUndefined field) = Return true.
Proof.
  intros Hvalid [-> | (l & -> & Hall)]; [reflexivity|].
  unfold validateEntries. simpl.
  induction Hall as [|x l Hx _ IH]; simpl; [reflexivity|].
  by rewrite (Hvalid x Hx), bind_Return.
Qed.

(** A well-formed candidate of any of the three types is accepted. *)
Lemma validateGoodFormat_accepts_well_formed o :
  well_formed_candidate o → validateGoodFormat (JObj o) = Return true.
Proof.
  intros ([n Hn] & (c & Hc & Hcpos) & (pt & Hpt & Hptpos)
          & (t & Ht & Hin & Hraw & Hfin) & Hprops & Hcomps).
  unfold validateGoodFormat. simpl. rewrite Hn, Ht, Hpt, Hc. simpl.
  rewrite (positive_not_le_zero c Hcpos), (positive_not_le_zero pt Hptpos).
  assert (includes config.good.types (JStr t) = true) as Hinc
    by (apply includes_types; eauto).
  simpl in Hinc. rewrite Hinc. simpl.
  assert (validateTypeFields (JObj o) (JStr t) = Return true) as ->.
  { unfold validateTypeFields. pose proof (switch_type_cases (JStr t)) as Hcase.
    destruct (switch_type (JStr t)); try reflexivity; injection Hcase as ->.
    - destruct (Hraw eq_refl) as [v Hv]. simpl. by rewrite Hv.
    - destruct (Hfin eq_refl) as (p & Hp & Hppos). simpl. rewrite Hp. simpl.
      by rewrite (positive_not_le_zero p Hppos). }
  rewrite bind_Return. simpl.
  rewrite (validateEntries_well_formed _ _ _ _ validateProperties_well_formed Hprops).
  rewrite bind_Return. simpl.
  by rewrite (validateEntries_well_formed _ _ _ _ validateComponent_well_formed Hcomps).
Qed.

(** The three sample candidates are well formed, one of each type, and so
    accepted. *)
Ltac field_facts :=
  repeat match goal with
         | |- _ ∧ _ => split
         | |- text _ => eexists; vm_compute; reflexivity
         | |- positive _ => eexists; split; vm_compute; reflexivity
         | |- sequence_of _ _ => left; vm_compute; reflexivity
         | |- _ → _ => discriminate
         | |- _ ∈ config.good.types => unfold config.good.types; set_solver
         | |- _ = _ => vm_compute; reflexivity
         end.

Lemma validateGoodFormat_accepts_each_type :
  validateGoodFormat (JObj rodFields) = Return true
  ∧ validateGoodFormat (JObj frameFields) = Return true
  ∧ validateGoodFormat (JObj bikeFields) = Return true.
Proof.
  split; [|split]; apply validateGoodFormat_accepts_well_formed.
  - unfold well_formed_candidate. split; [|split; [|split; [|split]]];
      [field_facts..| |field_facts].
    exists "raw". split; [|split; [|split]]; field_facts. intros _. field_facts.
  - unfold well_formed_candidate. split; [|split; [|split; [|split]]];
      [field_facts..| |field_facts].
    exists "semi-finished". field_facts.
  - unfold well_formed_candidate. split; [|split; [|split; [|split; [|split]]]];
      [field_facts..| | |].
    + exists "finished". split; [|split; [|split]]; field_facts. intros _. field_facts.
    + right. eexists. split; [vm_compute; reflexivity|].
      repeat constructor. eexists. split; [reflexivity|]. field_facts.
    + right. eexists. split; [vm_compute; reflexivity|].
      repeat constructor. eexists. split; [reflexivity|]. field_facts.
Qed.

(** What validation does reject and accept: it rejects every candidate with
    a cost or a process time at or below zero, or a type outside the three,
    or of type raw without a text vendor, or of type finished with a price
    that is not a number or is at or below zero; and it accepts a
    well-formed candidate of any of the three types. *)
Theorem validateGoodFormat_rejects_and_accepts :
  (∀ good, ill_formed_candidate good → validateGoodFormat good = Return false)
  ∧ (∀ o, well_formed_candidate o → validateGoodFormat (JObj o) = Return true).
Proof.
  split; [|apply validateGoodFormat_accepts_well_formed].
  intros good [(cost & Hget & Hle) | [(processTime & Hget & Hle)
              | [(type & Hget & Hout) | [(Htype & vendor & Hget & Hnot)
              | (Htype & price & Hget & Hbad)]]]].
  - eapply validateGoodFormat_rejects_cost; eauto.
  - eapply validateGoodFormat_rejects_processTime; eauto.
  - eapply validateGoodFormat_rejects_type; eauto.
  - eapply validateGoodFormat_rejects_raw_vendor; eauto.
    destruct (String.eqb (typeof vendor) "string") eqn:Hty; [|reflexivity].
    apply typeof_string in Hty as [s ->]. by destruct (Hnot s).
  - eapply validateGoodFormat_rejects_finished_price; eauto.
    destruct Hbad as [Hnot | Hle]; [left|by right].
    destruct (String.eqb (typeof price) "number") eqn:Hty; [|reflexivity].
    apply typeof_number in Hty as [x ->]. by destruct (Hnot x).
Qed.

(** ** [Promise.all] *)

Lemma omap_all_Some {A B} (f : A → option B) (l : list A) :
  Forall (λ x, is_Some (f x)) l → Forall2 (λ x y, f x = Some y) l (omap f l).
Proof.
  induction 1 as [|x l [y Hy] _ IH]; simpl; [constructor|].
  rewrite Hy. by constructor.
Qed.

Lemma omap_all_None {A B} (f : A → option B) (l : list A) :
  Forall (λ x, f x = None) l → omap f l = [].
Proof. induction 1 as [|x l Hx _ IH]; simpl; [done|]. by rewrite Hx. Qed.

Lemma filter_all {A} (P : A → Prop) `{∀ x, Decision (P x)} (l : list A) :
  Forall P l → filter P l = l.
Proof.
  induction 1 as [|x l Hx _ IH]; [done|].
  by rewrite filter_cons_True, IH.
Qed.

Section promise_all_facts.
Context {S A : Type}.
Implicit Types (tasks : list (M S A)) (order : list nat) (s : S).

(** The tasks that ran are those the order names, in that order. *)
Lemma run_tasks_indices tasks order s :
  (run_tasks tasks order s).1.*1 = filter (λ i, i < length tasks) order.
Proof.
  revert s. induction order as [|i order IH]; intros s; simpl; [done|].
  destruct (tasks !! i) as [task|] eqn:Hi.
  - destruct (task s) as [r s']. specialize (IH s').
    destruct (run_tasks tasks order s') as [outs s'']. simpl in *.
    rewrite filter_cons_True by (simpl; eapply lookup_lt_Some; eauto).
    f_equal. exact IH.
  - rewrite filter_cons_False by (apply Nat.nlt_ge, lookup_ge_None; exact Hi). apply IH.
Qed.

(** What holds of every outcome a task can have holds of the outcomes kept. *)
Lemma run_tasks_outcomes (Q : nat → result A → Prop) tasks order s :
  (∀ i task s0, tasks !! i = Some task → Q i (task s0).1) →
  Forall (λ out, Q out.1 out.2) (run_tasks tasks order s).1.
Proof.
  intros HQ. revert s. induction order as [|i order IH]; intros s; simpl; [done|].
  destruct (tasks !! i) as [task|] eqn:Hi; [|apply IH].
  pose proof (HQ i task s Hi) as Hout.
  destruct (task s) as [r s']. specialize (IH s').
  destruct (run_tasks tasks order s') as [outs s'']. simpl in *.
  by constructor.
Qed.

Lemma settled_indices tasks order s :
  order ≡ₚ seq 0 (length tasks) →
  (run_tasks tasks order s).1.*1 ≡ₚ seq 0 (length tasks).
Proof.
  intros Hperm. rewrite run_tasks_indices.
  rewrite filter_all; [done|].
  apply Forall_forall. intros i Hi. rewrite Hperm in Hi.
  apply elem_of_seq in Hi. apply Hi.
Qed.

(** When every task completes, every task has an outcome, and one only. *)
Lemma run_tasks_outcome_of tasks order s i :
  order ≡ₚ seq 0 (length tasks) →
  i < length tasks →
  ∃ r, (i, r) ∈ (run_tasks tasks order s).1
       ∧ (list_to_map (run_tasks tasks order s).1 : gmap nat (result A)) !! i = Some r.
Proof.
  intros Hperm Hi. pose proof (settled_indices tasks order s Hperm) as Hidx.
  assert (i ∈ (run_tasks tasks order s).1.*1) as Hin
    by (rewrite Hidx; apply elem_of_seq; lia).
  apply list_elem_of_fmap in Hin as ([j r] & -> & Hin). simpl.
  exists r. split; [done|]. apply elem_of_list_to_map_1; [|done].
  rewrite Hidx. apply NoDup_seq.
Qed.

(** One task that throws, whatever the state it runs in, has the whole
    [Promise.all] rejected. *)
Lemma promise_all_rejected tasks order s i task :
  order ≡ₚ seq 0 (length tasks) →
  tasks !! i = Some task →
  (∀ s0, is_Throw (task s0).1) →
  is_Throw (promise_all order tasks s).1.
Proof.
  intros Hperm Hi Hthrow. unfold promise_all.
  destruct (run_tasks_outcome_of tasks order s i Hperm) as (r & Hin & _);
    [by eapply lookup_lt_Some|].
  pose proof (run_tasks_outcomes (λ j r, j = i → is_Throw r) tasks order s) as Hout.
  destruct (run_tasks tasks order s) as [outs s']. simpl in *.
  assert (is_Throw r) as Hr.
  { assert (Forall (λ out, out.1 = i → is_Throw out.2) outs) as Hall.
    { apply Hout. intros j t s0 Hj ->. rewrite Hi in Hj. injection Hj as <-.
      apply Hthrow. }
    eapply Forall_forall in Hall; [|exact Hin]. by apply Hall. }
  destruct r as [a|e]; [done|].
  assert (e ∈ omap rejection outs) as He
    by (apply list_elem_of_omap; exists (i, Throw e); done).
  destruct (omap rejection outs); [by apply not_elem_of_nil in He|done].
Qed.

(** When no task can throw, [Promise.all] is fulfilled with one value per
    task, in the order of the tasks, each the value its task returned. *)
Lemma promise_all_fulfilled tasks order s :
  order ≡ₚ seq 0 (length tasks) →
  (∀ i task s0, tasks !! i = Some task → ¬ is_Throw (task s0).1) →
  ∃ values s',
    promise_all order tasks s = (Return values, s')
    ∧ Forall2 (λ task a, ∃ s1 s2, task s1 = (Return a, s2)) tasks values.
Proof.
  intros Hperm Hsafe. unfold promise_all.
  pose proof (run_tasks_outcomes
                (λ i r, ∃ task s1, tasks !! i = Some task ∧ r = (task s1).1)
                tasks order s) as Hout.
  pose proof (run_tasks_outcome_of tasks order s) as Hof.
  destruct (run_tasks tasks order s) as [outs s']. simpl in *.
  assert (Forall (λ out, ∃ task s1, tasks !! out.1 = Some task
                                    ∧ out.2 = (task s1).1) outs)
    as Hall by (apply Hout; intros i task s0 Hi; exists task, s0; auto).
  clear Hout.
  assert (∀ i, i < length tasks →
               ∃ task s1 s2 a, tasks !! i = Some task ∧ task s1 = (Return a, s2)
                               ∧ fulfilment outs i = Some a) as Hval.
  { intros i Hi. destruct (Hof i Hperm Hi) as (r & Hin & Hmap).
    eapply Forall_forall in Hall; [|exact Hin].
    destruct Hall as (task & s1 & Htask & Hr). simpl in *.
    pose proof (Hsafe i task s1 Htask) as Hno.
    destruct (task s1) as [r' s2] eqn:Hrun. simpl in *. subst r'.
    destruct r as [a|e]; [|by destruct Hno].
    exists task, s1, s2, a. unfold fulfilment. by rewrite Hmap. }
  assert (omap rejection outs = []) as ->.
  { apply omap_all_None. apply Forall_forall. intros [i r] Hin.
    eapply Forall_forall in Hall; [|exact Hin].
    destruct Hall as (task & s1 & Htask & Hr). simpl in *.
    pose proof (Hsafe i task s1 Htask) as Hno. rewrite <-Hr in Hno.
    unfold rejection. simpl. destruct r; [done|by destruct Hno]. }
  simpl. eexists _, s'. split; [reflexivity|].
  pose proof (omap_all_Some (fulfilment outs) (seq 0 (length tasks))) as Hvalues.
  assert (Forall (λ i, is_Some (fulfilment outs i)) (seq 0 (length tasks))) as Hsome.
  { apply Forall_forall. intros i Hi. apply elem_of_seq in Hi.
    destruct (Hval i) as (_ & _ & _ & a & _ & _ & ->); [lia|]. eauto. }
  specialize (Hvalues Hsome).
  apply Forall2_same_length_lookup. split.
  - apply Forall2_length in Hvalues. by rewrite length_seq in Hvalues.
  - intros i task a Hi Ha.
    assert (i < length tasks) as Hlt by (by eapply lookup_lt_Some).
    eapply Forall2_lookup_lr in Hvalues;
      [|apply lookup_seq_lt; exact Hlt|exact Ha].
    simpl in Hvalues.
    destruct (Hval i Hlt) as (task' & s1 & s2 & a' & Htask & Hrun & Hful).
    pose proof (eq_trans (eq_sym Hi) Htask) as [= <-].
    pose proof (eq_trans (eq_sym Hvalues) Hful) as [= <-]. eauto.
Qed.

End promise_all_facts.

(** ** The component existence check *)

Section lookup_facts.
Context `{Host}.

Lemma lookups_app t1 t2 : lookups (t1 ++ t2) = lookups t1 ++ lookups t2.
Proof. apply omap_app. Qed.

Lemma unresolved_iff d id :
  unresolved d id = true ↔ not_found d id ∨ lookup_error d id.
Proof.
  unfold unresolved, not_found, lookup_error. split.
  - destruct (GoodModel_findById id d) as [g|e]; [|by eauto].
    intros Hg%negb_true_iff. eauto.
  - intros [(g & -> & ->) | (e & ->)]; reflexivity.
Qed.

(** A truthy value can be redacted without an exception. *)
Lemma cleanUpGood_truthy g : truthy g = true → ∃ g', cleanUpGood g = Return g'.
Proof.
  intros Hg. unfold cleanUpGood.
  destruct g; try discriminate; simpl; eauto.
Qed.

(** [getSingleGood] always comes back with an envelope: it asks the
    repository once, changes nothing, and its [status] tells whether the
    lookup produced a good. *)
Lemma getSingleGood_outcome id w :
  ∃ envelope logs,
    getSingleGood id w
    = (Return envelope, {| db := db w; trace := trace w ++ CallFindById id :: logs |})
    ∧ status envelope = negb (unresolved (db w) id)
    ∧ lookups logs = [].
Proof.
  unfold getSingleGood, try_catch, mbind, mret, M_bind, M_ret, call_findById, emit,
    unresolved, record.
  simpl. destruct (GoodModel_findById id (db w)) as [g|e].
  - destruct (truthy g) eqn:Hg.
    + destruct (cleanUpGood_truthy g Hg) as [g' Hg'].
      unfold lift. rewrite Hg'. simpl. eexists _, []. done.
    + simpl. eexists _, []. done.
  - simpl. eexists _, [_]. rewrite <-app_assoc. done.
Qed.

(** One callback of [checkIfComponentExists]. *)
Lemma check_task_outcome id w invalid :
  ∃ logs,
    check_task id (w, invalid)
    = (Return (),
       ({| db := db w; trace := trace w ++ CallFindById id :: logs |},
        invalid ++ (if unresolved (db w) id then [id] else [])))
    ∧ lookups logs = [].
Proof.
  destruct (getSingleGood_outcome id w) as (envelope & logs & Hget & Hstatus & Hlogs).
  exists logs. split; [|done].
  unfold check_task, mbind, M_bind, zoom. simpl. rewrite Hget, Hstatus.
  rewrite negb_involutive. destruct (unresolved (db w) id); simpl; [done|].
  by rewrite app_nil_r.
Qed.

(** The callbacks, run in the order [order]: the ids whose lookup fails are
    pushed in that order, and the repository is asked once per callback. *)
Lemma run_check_tasks ids order w invalid :
  ∃ outs w',
    run_tasks (map check_task ids) order (w, invalid)
    = (outs, (w', invalid ++ filter (λ id, unresolved (db w) id) (omap (ids !!.) order)))
    ∧ db w' = db w
    ∧ lookups (trace w') = lookups (trace w) ++ omap (ids !!.) order
    ∧ Forall (λ out, out.2 = Return ()) outs.
Proof.
  revert w invalid. induction order as [|i order IH]; intros w invalid; simpl.
  - exists [], w. by rewrite !app_nil_r.
  - rewrite list_lookup_fmap. destruct (ids !! i) as [id|] eqn:Hi; simpl; [|apply IH].
    destruct (check_task_outcome id w invalid) as (logs & -> & Hlogs).
    edestruct IH as (outs & w' & -> & Hdb & Htrace & Houts).
    simpl in *. exists ((i, Return ()) :: outs), w'. repeat split.
    + destruct (unresolved (db w) id) eqn:Hid.
      * rewrite filter_cons_True by (by apply Is_true_true). by rewrite <-app_assoc.
      * rewrite filter_cons_False by (by apply Is_true_false). by rewrite app_nil_r.
    + done.
    + rewrite Htrace, lookups_app. simpl. by rewrite Hlogs, <-app_assoc.
    + by constructor.
Qed.

(** [checkIfComponentExists] on a sequence of component references whose
    ids can be read. *)
Lemma checkIfComponentExists_outcome cs ids w :
  map_result (λ c, get c "id") cs = Return ids →
  ∃ w',
    checkIfComponentExists (JArr cs) w
    = (Return (filter (λ id, unresolved (db w) id)
                      (omap (ids !!.) (settle w (length ids)))), w')
    ∧ db w' = db w
    ∧ lookups (trace w') = lookups (trace w) ++ omap (ids !!.) (settle w (length ids)).
Proof.
  intros Hids.
  destruct (run_check_tasks ids (settle w (length ids)) w [])
    as (outs & w' & Hrun & Hdb & Htrace & Houts).
  exists w'. split; [|done].
  unfold checkIfComponentExists, mbind, M_bind, lift, get_state. simpl.
  rewrite Hids. unfold with_local, promise_all.
  rewrite Hrun.
  assert (omap rejection outs = @nil Exn) as ->.
  { apply omap_all_None. eapply Forall_impl; [exact Houts|].
    intros [i r] Hr. unfold rejection. simpl in *. by rewrite Hr. }
  reflexivity.
Qed.

(** When every callback completes, the ids come up once each, in some order. *)
Lemma settled_ids (ids : list JsVal) w :
  settles_all → omap (ids !!.) (settle w (length ids)) ≡ₚ ids.
Proof.
  intros Hsettle. rewrite (Hsettle w (length ids)).
  assert (∀ k, omap (ids !!.) (seq k (length ids - k)) = drop k ids) as Hdrop.
  { intros k. remember (length ids - k) as n eqn:Hn. revert k Hn.
    induction n as [|n IH]; intros k Hn; simpl.
    - rewrite drop_ge by lia. done.
    - destruct (lookup_lt_is_Some_2 ids k) as [id Hid]; [lia|].
      rewrite Hid. rewrite IH by lia. symmetry. by apply drop_S. }
  specialize (Hdrop 0). rewrite Nat.sub_0_r in Hdrop. by rewrite Hdrop.
Qed.

End lookup_facts.

Section service_facts.
Context `{Host}.

(** The check on a sequence of references whose ids can be read, when every
    callback completes: it is fulfilled; the repository has been asked once
    per reference; the ids reported are those of the references whose
    lookup failed, one entry per such reference. *)
Lemma checkIfComponentExists_settled cs ids w :
  settles_all →
  map_result (λ c, get c "id") cs = Return ids →
  ∃ invalid w',
    checkIfComponentExists (JArr cs) w = (Return invalid, w')
    ∧ db w' = db w
    ∧ lookups (trace w') ≡ₚ lookups (trace w) ++ ids
    ∧ invalid ≡ₚ filter (λ id, unresolved (db w) id) ids.
Proof.
  intros Hsettle Hids.
  destruct (checkIfComponentExists_outcome cs ids w Hids) as (w' & Hrun & Hdb & Htrace).
  eexists _, w'. split; [exact Hrun|]. split; [exact Hdb|]. split.
  - by rewrite Htrace, (settled_ids ids w Hsettle).
  - by rewrite (settled_ids ids w Hsettle).
Qed.

Lemma filter_agree {A} (P Q : A → Prop) `{∀ x, Decision (P x)} `{∀ x, Decision (Q x)}
    (l : list A) :
  Forall (λ x, P x ↔ Q x) l → filter P l = filter Q l.
Proof.
  induction 1 as [|x l Hx _ IH]; [done|].
  destruct (decide (P x)) as [HP|HP].
  - rewrite !filter_cons_True by tauto. by rewrite IH.
  - rewrite !filter_cons_False by tauto. exact IH.
Qed.

Lemma missing_not_found d id : missing d id = true ↔ not_found d id.
Proof.
  unfold missing, not_found. split.
  - destruct (GoodModel_findById id d) as [g|e]; [|discriminate].
    intros Hg%negb_true_iff. eauto.
  - intros (g & -> & ->). reflexivity.
Qed.

(** C3: when every callback completes and no lookup fails with an error of
    the repository, [checkIfComponentExists] asks the repository once per
    component reference (a repeated id is looked up again) and is fulfilled
    with the ids of the references whose lookup found no good, one entry
    per such reference, all of them collected, in the order in which the
    lookups complete; for the references to 7 and 99, where 7 exists and 99
    is not found, the result is exactly [[99]]. *)
Theorem checkIfComponentExists_reports_failing_references :
  settles_all →
  (∀ (cs ids : list JsVal) (w : World Db),
     map_result (λ c, get c "id") cs = Return ids →
     Forall (λ id, ∃ g, GoodModel_findById id (db w) = Return g) ids →
     ∃ invalid w',
       checkIfComponentExists (JArr cs) w = (Return invalid, w')
       ∧ lookups (trace w') ≡ₚ lookups (trace w) ++ ids
       ∧ in_completion_order w ids ≡ₚ ids
       ∧ invalid = filter (λ id, missing (db w) id) (in_completion_order w ids))
  ∧ (∀ (w : World Db) (q7 q99 : float) (g : JsVal),
       GoodModel_findById (JNum 7) (db w) = Return g → truthy g = true →
       not_found (db w) (JNum 99) →
       (checkIfComponentExists (JArr [component 7 q7; component 99 q99]) w).1
       = Return [JNum 99]).
Proof.
  intros Hsettle. split.
  - intros cs ids w Hids Hanswered.
    destruct (checkIfComponentExists_outcome cs ids w Hids) as (w' & Hrun & _ & Htrace).
    eexists _, w'. split; [exact Hrun|].
    pose proof (settled_ids ids w Hsettle) as Hperm.
    split; [by rewrite Htrace, Hperm|]. split; [exact Hperm|].
    unfold in_completion_order. apply filter_agree.
    apply Forall_forall. intros id Hin. rewrite Hperm in Hin.
    eapply Forall_forall in Hanswered as [g Hg]; [|exact Hin].
    unfold unresolved, missing. by rewrite Hg.
  - intros w q7 q99 g H7 Hg (g' & H99 & Hg').
    destruct (checkIfComponentExists_settled
                [component 7 q7; component 99 q99] [JNum 7; JNum 99] w Hsettle)
      as (invalid & w' & Hrun & _ & _ & Hinvalid); [reflexivity|].
    rewrite Hrun. simpl. f_equal. apply Permutation_singleton_r.
    rewrite Hinvalid.
    rewrite filter_cons_False
      by (apply Is_true_false; unfold unresolved; by rewrite H7, Hg).
    rewrite filter_cons_True
      by (apply Is_true_true; unfold unresolved; by rewrite H99, Hg').
    done.
Qed.

(** What the check reports as it stands, when every callback completes: an
    id is reported if and only if it is the id of a reference and its lookup
    did not produce a good, whether the repository found none or failed. *)
Theorem checkIfComponentExists_invalid_iff_lookup_fails
    (cs ids : list JsVal) (w : World Db) :
  settles_all →
  map_result (λ c, get c "id") cs = Return ids →
  ∃ invalid w',
    checkIfComponentExists (JArr cs) w = (Return invalid, w')
    ∧ ∀ id, id ∈ invalid ↔ id ∈ ids ∧ (not_found (db w) id ∨ lookup_error (db w) id).
Proof.
  intros Hsettle Hids.
  destruct (checkIfComponentExists_settled cs ids w Hsettle Hids)
    as (invalid & w' & Hrun & _ & _ & Hinvalid).
  exists invalid, w'. split; [exact Hrun|].
  intros id. rewrite Hinvalid, list_elem_of_filter, <-unresolved_iff.
  rewrite Is_true_true. tauto.
Qed.

Lemma addSingleGood_validation_throws good e w :
  validateGoodFormat good = Throw e → addSingleGood good w = (Throw e, w).
Proof. intros Hthrow. unfold addSingleGood, mbind, M_bind, lift. by rewrite Hthrow. Qed.

(** C8: for a candidate that [validateGoodFormat] rejects, [addSingleGood]
    is fulfilled with the failure envelope of the validation stage, which
    carries the candidate as it was given, and has asked nothing of the
    repository: the world is as it was. *)
Theorem addSingleGood_rejected_candidate (good : JsVal) (w : World Db) :
  validateGoodFormat good = Return false →
  addSingleGood good w
  = (Return {| status := false; message := JStr "Failed while validating good";
               good := Some good |}, w).
Proof.
  intros Hreject. unfold addSingleGood, mbind, M_bind, lift. by rewrite Hreject.
Qed.

(** C10: a good whose [type] is none of the three recognised ones is
    returned by [cleanUpGood] as it is, and so comes out of the read
    operations with all its fields. *)
Theorem cleanUpGood_keeps_unknown_type (g : JsVal) :
  unknown_type g →
  cleanUpGood g = Return g
  ∧ (∀ id (w : World Db),
       GoodModel_findById id (db w) = Return g → truthy g = true →
       (getSingleGood id w).1 = Return {| status := true; message := g; good := None |})
  ∧ (∀ (gs : list JsVal) (w : World Db),
       Forall unknown_type gs →
       (GoodModel_getAllGoods (db w) = Return (JArr gs) →
        (getAllGoods w).1
        = Return {| status := true; message := JArr gs; good := None |})
       ∧ (∀ type archived,
            GoodModel_getByType type archived (db w) = Return (JArr gs) →
            ((if archived then getAllArchivedGoodsOfType type else getAllGoodsOfType type)
               w).1
            = Return {| status := true; message := JArr gs; good := None |})).
Proof.
  intros Hg. split; [by apply cleanUpGood_unknown|]. split.
  - intros id w Hfind Htruthy.
    unfold getSingleGood, try_catch, mbind, M_bind, call_findById, lift. simpl.
    by rewrite Hfind, Htruthy, cleanUpGood_unknown.
  - intros gs w Hgs. split.
    + intros Hall.
      unfold getAllGoods, try_catch, mbind, M_bind, call_getAllGoods, lift. simpl.
      by rewrite Hall, cleanUpMultipleOfGoods_unknown.
    + intros type [] Hby.
      * unfold getAllArchivedGoodsOfType, try_catch, mbind, M_bind, call_getByType, lift.
        simpl. by rewrite Hby, cleanUpMultipleOfGoods_unknown.
      * unfold getAllGoodsOfType, try_catch, mbind, M_bind, call_getByType, lift.
        simpl. by rewrite Hby, cleanUpMultipleOfGoods_unknown.
Qed.

(** C9: a batch in which one candidate has a [properties] field that is not
    a sequence: that candidate's [addSingleGood] is rejected, and with it
    the [Promise.all] of [addBulkGoods], which yields no result at all, not
    one per candidate. Likewise [archiveMultipleGoods] with a [null] entry. *)
Theorem addBulkGoods_rejected_as_a_whole (w : World Db) :
  settles_all →
  is_Throw (addBulkGoods (JArr [steelRod; badProperties]) w).1
  ∧ is_Throw (archiveMultipleGoods
                (JArr [obj [("id", JNum 7); ("archive", JBool true)]; JNull]) w).1.
Proof.
  intros Hsettle. split.
  - unfold addBulkGoods, mbind, M_bind, lift, get_state. simpl.
    eapply (promise_all_rejected _ _ _ 1); [apply (Hsettle w 2)|reflexivity|].
    intros w0. erewrite addSingleGood_validation_throws; [exact I|].
    vm_compute. reflexivity.
  - unfold archiveMultipleGoods, mbind, M_bind, lift, get_state. simpl.
    eapply (promise_all_rejected _ _ _ 1); [apply (Hsettle w 2)|reflexivity|].
    intros w0. exact I.
Qed.

End service_facts.

(** ** Where validation and the operations built on it return *)

Lemma get_readable v k : is_nullish v = false → ∃ x, get v k = Return x.
Proof. destruct v; simpl; try discriminate; eauto. Qed.

Lemma get_Return_readable v k x : get v k = Return x → is_nullish v = false.
Proof. by destruct v. Qed.

Lemma validateProperties_returns p :
  is_nullish p = false → ∃ b, validateProperties p = Return b.
Proof.
  intros Hp. unfold validateProperties.
  destruct (get_readable p "name" Hp) as [n ->].
  destruct (get_readable p "value" Hp) as [v ->]. simpl.
  destruct (negb _); eauto.
Qed.

Lemma validateComponent_returns c :
  is_nullish c = false → ∃ b, validateComponent c = Return b.
Proof.
  intros Hc. unfold validateComponent.
  destruct (get_readable c "id" Hc) as [id ->].
  destruct (get_readable c "quantity" Hc) as [q ->]. simpl.
  destruct (negb _); eauto.
Qed.

Lemma validateComponent_Return_id c b :
  validateComponent c = Return b → ∃ id, get c "id" = Return id.
Proof.
  unfold validateComponent. destruct (get c "id") as [id|e]; [eauto|discriminate].
Qed.

(** The traversal returns exactly when the check of every entry returns. *)
Lemma validate_each_returns (validate : JsVal → result bool) l valid :
  Forall (λ x, ∃ ok, validate x = Return ok) l ↔
  ∃ b, fold_result (λ valid x, ok ← validate x;
                               Return (if negb ok then false else valid)) valid l
       = Return b.
Proof.
  revert valid. induction l as [|x l IH]; intros valid; simpl.
  - split; eauto.
  - rewrite Forall_cons. split.
    + intros [[ok ->] Hl]. rewrite bind_Return. by apply IH.
    + destruct (validate x) as [ok|e]; [|by intros [b Hb]].
      rewrite bind_Return. intros Hb%IH. eauto.
Qed.

Lemma validateEntries_returns receiver validate field :
  (∀ x, is_nullish x = false → ∃ b, validate x = Return b) →
  checkable field →
  ∃ b, validateEntries receiver validate field = Return b.
Proof.
  intros Hvalidate [Hfalsy | (l & -> & Hl)]; unfold validateEntries.
  - rewrite Hfalsy. eauto.
  - simpl. apply validate_each_returns.
    eapply Forall_impl; [exact Hl|]. apply Hvalidate.
Qed.

(** X4: on an object whose [properties] and [components] are each falsy or a
    sequence of entries other than [undefined] and [null],
    [validateGoodFormat] returns a boolean. *)
Lemma validateGoodFormat_returns o :
  checkable (default JUndefined (o !! "properties")) →
  checkable (default JUndefined (o !! "components")) →
  ∃ b, validateGoodFormat (JObj o) = Return b.
Proof.
  intros Hprops Hcomps. unfold validateGoodFormat. simpl.
  destruct (_ || _); [eauto|].
  assert (∃ b, validateTypeFields (JObj o) (default JUndefined (o !! "type")) = Return b)
    as [typeOk ->].
  { unfold validateTypeFields. destruct (switch_type _); simpl; eauto. }
  rewrite bind_Return. destruct typeOk; simpl; [|eauto].
  destruct (validateEntries_returns "good.properties" validateProperties _
              validateProperties_returns Hprops) as [propertiesOk ->].
  rewrite bind_Return. destruct propertiesOk; simpl; [|eauto].
  destruct (validateEntries_returns "good.components" validateComponent _
              validateComponent_returns Hcomps) as [componentsOk ->].
  rewrite bind_Return. destruct componentsOk; simpl; eauto.
Qed.

(** An accepted candidate can be read from, and its [components], when
    truthy, are a sequence of references whose ids can be read. *)
Lemma validateGoodFormat_accepted_components good :
  validateGoodFormat good = Return true →
  is_nullish good = false
  ∧ ∃ components,
      get good "components" = Return components
      ∧ (truthy components = true →
         ∃ cs ids, components = JArr cs ∧ map_result (λ c, get c "id") cs = Return ids).
Proof.
  unfold validateGoodFormat. intros Hvalid.
  destruct (get good "name") as [name|] eqn:Hname; [|discriminate].
  split; [by eapply get_Return_readable|].
  destruct (get good "type") as [type|]; [|discriminate].
  destruct (get good "processTime") as [processTime|]; [|discriminate].
  destruct (get good "cost") as [cost|]; [|discriminate].
  rewrite !bind_Return in Hvalid.
  destruct (_ || _); [discriminate|].
  destruct (validateTypeFields good type) as [[]|]; try discriminate.
  rewrite bind_Return in Hvalid. simpl in Hvalid.
  destruct (get good "properties") as [properties|]; [|discriminate].
  rewrite bind_Return in Hvalid.
  destruct (validateEntries "good.properties" validateProperties properties) as [[]|]; try discriminate.
  rewrite bind_Return in Hvalid. simpl in Hvalid.
  destruct (get good "components") as [components|]; [|discriminate].
  rewrite bind_Return in Hvalid.
  destruct (validateEntries "good.components" validateComponent components) as [[]|] eqn:Hentries;
    try discriminate.
  exists components. split; [reflexivity|]. intros Htruthy.
  unfold validateEntries in Hentries. rewrite Htruthy in Hentries.
  destruct components as [| | | | |cs|]; try discriminate. simpl in Hentries.
  assert (Forall (λ c, ∃ ok, validateComponent c = Return ok) cs) as Hall
    by (eapply validate_each_returns; eauto).
  assert (∃ ids, map_result (λ c, get c "id") cs = Return ids) as [ids Hids];
    [|by exists cs, ids].
  clear Hentries Htruthy Hvalid.
  induction Hall as [|c cs [ok Hc] _ [ids IH]]; simpl; [eauto|].
  destruct (validateComponent_Return_id c ok Hc) as [id ->]. rewrite IH. eauto.
Qed.

(** ** Batches *)

Section batch_facts.
Context `{Host}.

Lemma saveGood_returns candidate w :
  is_nullish candidate = false →
  ∃ envelope w', saveGood candidate w = (Return envelope, w')
                 ∧ good envelope = Some candidate.
Proof.
  intros Hread. destruct (get_readable candidate "type" Hread) as [type Htype].
  unfold saveGood, try_catch, mbind, mret, M_bind, M_ret, lift, emit, call_save.
  rewrite Htype.
  destruct (switch_type type);
    try (destruct (Model_save _ candidate (db w)) as [[r|e] d]); simpl; eauto.
Qed.

(** Unless validation throws, [addSingleGood] is fulfilled with an envelope
    that carries the candidate, whatever the repository does. *)
Lemma addSingleGood_returns candidate w :
  ¬ is_Throw (validateGoodFormat candidate) →
  ∃ envelope w', addSingleGood candidate w = (Return envelope, w')
                 ∧ good envelope = Some candidate.
Proof.
  intros Hsafe. unfold addSingleGood, mbind, M_bind, lift.
  destruct (validateGoodFormat candidate) as [[]|e] eqn:Hvalid; [| |by destruct Hsafe].
  - destruct (validateGoodFormat_accepted_components candidate Hvalid)
      as (Hread & components & -> & Hseq).
    simpl. destruct (truthy components); [|by apply saveGood_returns].
    destruct (Hseq eq_refl) as (cs & ids & -> & Hids).
    destruct (checkIfComponentExists_outcome cs ids w Hids) as (w' & -> & _).
    destruct (bool_decide _); simpl; [eauto|by apply saveGood_returns].
  - simpl. eauto.
Qed.


(** X15: when validation throws on none of the candidates, [addBulkGoods] is
    fulfilled with one envelope per candidate, in the order of the
    candidates: the envelope [addSingleGood] gives for that candidate, which
    carries it. A candidate that fails, at whatever stage, has its failure
    envelope at its place. *)
Lemma addBulkGoods_one_result_per_candidate cs w :
  settles_all →
  Forall (λ c, ¬ is_Throw (validateGoodFormat c)) cs →
  ∃ results w',
    addBulkGoods (JArr cs) w = (Return results, w')
    ∧ Forall2 (λ c r, good r = Some c
                      ∧ ∃ w1 w2, addSingleGood c w1 = (Return r, w2)) cs results.
Proof.
  intros Hsettle Hsafe. unfold addBulkGoods, mbind, M_bind, lift, get_state. simpl.
  destruct (promise_all_fulfilled (map addSingleGood cs) (settle w (length cs)) w)
    as (results & w' & Hrun & Hall).
  - rewrite length_map. apply Hsettle.
  - intros i task w0 Hi. apply list_lookup_fmap_Some in Hi as (c & -> & Hc).
    eapply Forall_lookup_1 in Hsafe; [|exact Hc].
    destruct (addSingleGood_returns c w0 Hsafe) as (envelope & w1 & -> & _). auto.
  - exists results, w'. split; [exact Hrun|].
    apply Forall2_fmap_l in Hall.
    apply Forall2_same_length_lookup. split; [by eapply Forall2_length|].
    intros i c r Hc Hr.
    destruct (Forall2_lookup_lr _ _ _ _ _ _ Hall Hc Hr) as (w1 & w2 & Hrun1).
    split; [|eauto].
    eapply Forall_lookup_1 in Hsafe; [|exact Hc].
    destruct (addSingleGood_returns c w1 Hsafe) as (envelope & w3 & Hrun2 & Hgood).
    simpl in Hrun1. rewrite Hrun1 in Hrun2. by injection Hrun2 as -> _.
Qed.


End batch_facts.

(** ** The theorems above at sample inputs *)

Lemma in_order_settles_all rows written : @settles_all (tableHost rows written (seq 0)).
Proof. intros w n. reflexivity. Qed.

Lemma validateGoodFormat_rejects_and_accepts_witness :
  validateGoodFormat freeRod = Return false
  ∧ validateGoodFormat (JObj frameFields) = Return true.
Proof.
  split.
  - apply (proj1 validateGoodFormat_rejects_and_accepts freeRod).
    left. exists (JNum 0). split; vm_compute; reflexivity.
  - apply (proj2 validateGoodFormat_rejects_and_accepts frameFields).
    unfold well_formed_candidate. split; [|split; [|split; [|split]]];
      [field_facts..| |field_facts].
    exists "semi-finished". field_facts.
Defined.

Lemma cleanUpGood_removes_exactly_witness :
  ∃ o', cleanUpGood (JObj boltFields) = Return (JObj o')
        ∧ (∀ k, k ∈ redacted_fields "raw" → o' !! k = None)
        ∧ (∀ k, k ∉ redacted_fields "raw" → o' !! k = boltFields !! k).
Proof.
  apply (cleanUpGood_removes_exactly boltFields "raw").
  - vm_compute. reflexivity.
  - apply list_elem_of_here.
Defined.

(** C3, as the specification has it: two references to the id 99, which is
    not found, are looked up twice and reported twice, not once for the
    distinct id. *)
Lemma checkIfComponentExists_repeats_repeated_id :
  (@checkIfComponentExists hostEmpty (JArr [component 99 1; component 99 2]) start).1
  = Return [JNum 99; JNum 99]
  ∧ lookups (trace (@checkIfComponentExists hostEmpty
                      (JArr [component 99 1; component 99 2]) start).2)
    = [JNum 99; JNum 99]
  ∧ ¬ NoDup [JNum 99; JNum 99].
Proof.
  split; [vm_compute; reflexivity|]. split; [vm_compute; reflexivity|].
  intros Hnd. apply NoDup_cons in Hnd as [Hnotin _]. apply Hnotin, list_elem_of_here.
Qed.

(** The ids are reported in the order in which the lookups complete. *)
Lemma checkIfComponentExists_completion_order :
  (@checkIfComponentExists hostEmptyReversed
     (JArr [component 98 1; component 99 1]) start).1
  = Return [JNum 99; JNum 98].
Proof. vm_compute. reflexivity. Qed.

Lemma checkIfComponentExists_reports_failing_references_witness :
  (∃ invalid w',
     @checkIfComponentExists host7 (JArr [component 7 2; component 99 1]) start
     = (Return invalid, w')
     ∧ lookups (trace w') ≡ₚ lookups (trace start) ++ [JNum 7; JNum 99]
     ∧ @in_completion_order host7 start [JNum 7; JNum 99] ≡ₚ [JNum 7; JNum 99]
     ∧ invalid = filter (λ id, @missing host7 () id)
                        (@in_completion_order host7 start [JNum 7; JNum 99]))
  ∧ (@checkIfComponentExists host7 (JArr [component 7 2; component 99 1]) start).1
    = Return [JNum 99].
Proof.
  pose proof (@checkIfComponentExists_reports_failing_references host7
                (in_order_settles_all only7 (Return JUndefined))) as [Hall H799].
  split.
  - apply (Hall [component 7 2; component 99 1] [JNum 7; JNum 99] start).
    + vm_compute. reflexivity.
    + repeat constructor; eexists; vm_compute; reflexivity.
  - eapply (H799 start 2%float 1%float).
    + vm_compute. reflexivity.
    + vm_compute. reflexivity.
    + exists JUndefined. split; vm_compute; reflexivity.
Defined.

(** C4: with a repository that cannot be reached, the lookup of 7 is
    rejected with an error and no lookup says that 7 is not found; the check
    reports 7 as a component that does not exist all the same, against its
    own description ("a list of non existing components"). *)
Theorem checkIfComponentExists_counts_repository_error :
  @lookup_error hostDown () (JNum 7)
  ∧ ¬ @not_found hostDown () (JNum 7)
  ∧ (@checkIfComponentExists hostDown (JArr [component 7 2]) start).1 = Return [JNum 7].
Proof.
  split; [by eexists|]. split; [|vm_compute; reflexivity].
  intros (g & Hg & _). discriminate.
Qed.

Lemma checkIfComponentExists_invalid_iff_lookup_fails_witness :
  ∃ invalid w',
    @checkIfComponentExists host7 (JArr [component 7 2; component 99 1]) start
    = (Return invalid, w')
    ∧ ∀ id, id ∈ invalid ↔
            id ∈ [JNum 7; JNum 99]
            ∧ (@not_found host7 () id ∨ @lookup_error host7 () id).
Proof.
  apply (@checkIfComponentExists_invalid_iff_lookup_fails host7
           [component 7 2; component 99 1] [JNum 7; JNum 99] start).
  - apply in_order_settles_all.
  - vm_compute. reflexivity.
Defined.

Lemma addSingleGood_rejected_candidate_witness :
  @addSingleGood hostEmpty freeRod start
  = (Return {| status := false; message := JStr "Failed while validating good";
               good := Some freeRod |}, start).
Proof.
  apply (@addSingleGood_rejected_candidate hostEmpty freeRod start).
  vm_compute. reflexivity.
Defined.

(** A candidate that validation rejects by returning [false] has its
    failure envelope at its place, between the envelopes of its siblings. *)
Lemma addBulkGoods_isolates_reported_failure :
  ((@addBulkGoods hostEmpty (JArr [steelRod; freeRod; steelRod]) start).1
     ≫= λ results, Return (map status results))
  = Return [true; false; true]
  ∧ ((@addBulkGoods hostEmpty (JArr [steelRod; freeRod; steelRod]) start).1
       ≫= λ results, Return (map good results))
    = Return [Some steelRod; Some freeRod; Some steelRod].
Proof. split; vm_compute; reflexivity. Qed.

Lemma addBulkGoods_rejected_as_a_whole_witness :
  is_Throw (@addBulkGoods hostEmpty (JArr [steelRod; badProperties]) start).1
  ∧ is_Throw (@archiveMultipleGoods hostEmpty
                (JArr [obj [("id", JNum 7); ("archive", JBool true)]; JNull]) start).1.
Proof.
  apply (@addBulkGoods_rejected_as_a_whole hostEmpty start).
  apply in_order_settles_all.
Defined.

Lemma cleanUpGood_keeps_unknown_type_witness :
  cleanUpGood serviceGood = Return serviceGood.
Proof.
  refine (proj1 (@cleanUpGood_keeps_unknown_type hostEmpty serviceGood _)).
  exists (JStr "service"). split; [vm_compute; reflexivity|].
  intros s Hs [= <-]. unfold config.good.types in Hs.
  repeat (apply elem_of_cons in Hs as [Hs|Hs]; [discriminate|]).
  by apply elem_of_nil in Hs.
Defined.

(** ** More on validation *)

Lemma validateProperties_true p :
  validateProperties p = Return true ↔ property_accepted p.
Proof.
  unfold validateProperties, property_accepted. split.
  - destruct (get p "name") as [name|]; [|discriminate]. rewrite bind_Return.
    destruct name; simpl; try discriminate.
    destruct (get p "value") as [value|]; [|discriminate]. rewrite bind_Return.
    destruct value; simpl; try discriminate. eauto.
  - intros (name & value & -> & ->). reflexivity.
Qed.

Lemma validateComponent_true c :
  validateComponent c = Return true ↔ component_accepted c.
Proof.
  unfold validateComponent, component_accepted. split.
  - destruct (get c "id") as [id|]; [|discriminate]. rewrite bind_Return.
    destruct id as [| | |id| | |]; simpl; try discriminate.
    destruct (PrimFloat.ltb 0 id) eqn:Hid; simpl; [|discriminate].
    destruct (get c "quantity") as [quantity|]; [|discriminate]. rewrite bind_Return.
    destruct quantity as [| | |quantity| | |]; simpl; try discriminate.
    destruct (PrimFloat.ltb 0 quantity) eqn:Hq; [|discriminate].
    intros _. by exists id, quantity.
  - intros (id & quantity & -> & -> & Hid & Hq). simpl. by rewrite Hid, Hq.
Qed.

(** The scan of the entries ends with its flag up exactly when the flag was
    up and every entry passed. *)
Lemma scan_true (validate : JsVal → result bool) l valid :
  fold_result (λ valid x, ok ← validate x; Return (if negb ok then false else valid))
              valid l = Return true
  ↔ valid = true ∧ Forall (λ x, validate x = Return true) l.
Proof.
  revert valid. induction l as [|x l IH]; intros valid; simpl.
  - split; [intros [= ->]; by split|by intros [-> _]].
  - rewrite Forall_cons. destruct (validate x) as [[]|e]; simpl.
    + rewrite IH. tauto.
    + rewrite IH. split; [by intros [? _]|by intros (_ & ? & _)].
    + split; [discriminate|by intros (_ & ? & _)].
Qed.

Lemma validateEntries_true receiver validate (accepted : JsVal → Prop) field :
  (∀ x, validate x = Return true ↔ accepted x) →
  validateEntries receiver validate field = Return true ↔ scanned accepted field.
Proof.
  intros Hvalidate. unfold validateEntries, scanned.
  destruct (truthy field) eqn:Htruthy; [|by split; [left|]].
  split.
  - destruct field as [| | | | |l|]; try discriminate. simpl.
    intros [_ Hall]%scan_true. right. exists l. split; [done|].
    eapply Forall_impl; [exact Hall|]. intros x. apply Hvalidate.
  - intros [|(l & -> & Hall)]; [discriminate|]. simpl.
    apply scan_true. split; [done|].
    eapply Forall_impl; [exact Hall|]. intros x. apply Hvalidate.
Qed.

Lemma validateTypeFields_true good type :
  type ∈ config.good.types →
  validateTypeFields good (JStr type) = Return true
  ↔ (type = "raw" → ∃ vendor, get good "vendor" = Return (JStr vendor))
    ∧ (type = "finished" →
       ∃ price, get good "price" = Return (JNum price) ∧ PrimFloat.leb price 0 = false).
Proof.
  intros Hin. unfold config.good.types in Hin.
  assert (type = "raw" ∨ type = "semi-finished" ∨ type = "finished")
    as [-> | [-> | ->]] by set_solver; unfold validateTypeFields; simpl.
  - split.
    + destruct (get good "vendor") as [vendor|]; [|discriminate].
      destruct vendor; simpl; try discriminate. split; [eauto|discriminate].
    + intros [Hraw _]. by destruct (Hraw eq_refl) as [vendor ->].
  - split; [|done]. split; discriminate.
  - split.
    + destruct (get good "price") as [price|]; [|discriminate].
      destruct price as [| | |price| | |]; simpl; try discriminate.
      destruct (PrimFloat.leb price 0) eqn:Hprice; [discriminate|].
      split; [discriminate|eauto].
    + intros [_ Hfin]. destruct (Hfin eq_refl) as (price & -> & Hprice).
      simpl. by rewrite Hprice.
Qed.

(** X1: [validateGoodFormat] returns [true] on the candidates described by
    [accepted_candidate], and on no other: the name, the type and, for a raw
    candidate, the vendor are strings; the cost, the process time and, for a
    finished candidate, the price are numbers that are not at or below zero;
    the type is one of the three; [properties] and [components] are each
    falsy or a sequence of accepted entries. *)
Theorem validateGoodFormat_true_iff (good : JsVal) :
  validateGoodFormat good = Return true ↔ accepted_candidate good.
Proof.
  unfold validateGoodFormat, accepted_candidate. split.
  - destruct (get good "name") as [name|]; [|discriminate].
    destruct (get good "type") as [type|]; [|discriminate].
    destruct (get good "processTime") as [processTime|]; [|discriminate].
    destruct (get good "cost") as [cost|]; [|discriminate].
    rewrite !bind_Return.
    destruct name as [| | | |name| |]; try discriminate.
    destruct type as [| | | |type| |]; try discriminate.
    destruct processTime as [| | |processTime| | |]; try discriminate.
    destruct cost as [| | |cost| | |]; try discriminate.
    destruct (includes config.good.types (JStr type)) eqn:Hin; simpl;
      [|by rewrite !orb_true_r].
    destruct (PrimFloat.leb cost 0) eqn:Hcost; [discriminate|].
    destruct (PrimFloat.leb processTime 0) eqn:Hpt; [discriminate|].
    assert (type ∈ config.good.types) as Htype
      by (by apply includes_types in Hin as (s & [= <-] & Hs)).
    simpl.
    destruct (validateTypeFields good (JStr type)) as [[]|] eqn:Hfields;
      try discriminate.
    apply (validateTypeFields_true good type Htype) in Hfields as [Hraw Hfin].
    rewrite bind_Return. simpl.
    destruct (get good "properties") as [properties|]; [|discriminate].
    rewrite bind_Return.
    destruct (validateEntries "good.properties" validateProperties properties)
      as [[]|] eqn:Hprops; try discriminate.
    rewrite bind_Return. simpl.
    destruct (get good "components") as [components|]; [|discriminate].
    rewrite bind_Return.
    destruct (validateEntries "good.components" validateComponent components)
      as [[]|] eqn:Hcomps; try discriminate.
    intros _. exists name, type, processTime, cost, properties, components.
    repeat split; try done.
    + by eapply validateEntries_true; [apply validateProperties_true|].
    + by eapply validateEntries_true; [apply validateComponent_true|].
  - intros (name & type & processTime & cost & properties & components
            & -> & -> & -> & -> & Hcost & Hpt & Htype & Hraw & Hfin
            & -> & Hprops & -> & Hcomps).
    rewrite !bind_Return.
    assert (includes config.good.types (JStr type) = true) as ->
      by (apply includes_types; eauto).
    simpl. rewrite Hcost, Hpt. simpl.
    assert (validateTypeFields good (JStr type) = Return true) as ->
      by (by apply validateTypeFields_true).
    rewrite bind_Return. simpl.
    assert (validateEntries "good.properties" validateProperties properties
            = Return true) as ->
      by (by eapply validateEntries_true; [apply validateProperties_true|]).
    rewrite bind_Return. simpl.
    assert (validateEntries "good.components" validateComponent components
            = Return true) as ->
      by (by eapply validateEntries_true; [apply validateComponent_true|]).
    reflexivity.
Qed.

Lemma default_undefined_Some (x : option JsVal) v :
  default JUndefined x = v → v ≠ JUndefined → x = Some v.
Proof. destruct x; simpl; [by intros ->|by intros <-]. Qed.

Lemma validateGoodFormat_same o1 o2 :
  same_for_validation o1 o2 → validateGoodFormat (JObj o1) = validateGoodFormat (JObj o2).
Proof.
  intros (Hcommon & Hraw & Hfin).
  assert (o1 !! "name" = o2 !! "name") as Hname
    by (apply Hcommon; unfold common_fields; set_solver).
  assert (o1 !! "type" = o2 !! "type") as Htype
    by (apply Hcommon; unfold common_fields; set_solver).
  assert (o1 !! "processTime" = o2 !! "processTime") as Hpt
    by (apply Hcommon; unfold common_fields; set_solver).
  assert (o1 !! "cost" = o2 !! "cost") as Hcost
    by (apply Hcommon; unfold common_fields; set_solver).
  assert (o1 !! "properties" = o2 !! "properties") as Hprops
    by (apply Hcommon; unfold common_fields; set_solver).
  assert (o1 !! "components" = o2 !! "components") as Hcomps
    by (apply Hcommon; unfold common_fields; set_solver).
  unfold validateGoodFormat, get.
  rewrite <-Hname, <-Htype, <-Hpt, <-Hcost, <-Hprops, <-Hcomps, !bind_Return.
  assert (validateTypeFields (JObj o1) (default JUndefined (o1 !! "type"))
          = validateTypeFields (JObj o2) (default JUndefined (o1 !! "type"))) as ->;
    [|reflexivity].
  unfold validateTypeFields.
  pose proof (switch_type_cases (default JUndefined (o1 !! "type"))) as Hcase.
  destruct (switch_type (default JUndefined (o1 !! "type"))); try reflexivity.
  - apply default_undefined_Some in Hcase; [|discriminate].
    unfold get. by rewrite (Hraw Hcase).
  - apply default_undefined_Some in Hcase; [|discriminate].
    unfold get. by rewrite (Hfin Hcase).
Qed.

(** X2: [validateGoodFormat] gives the same result whatever is stored in a field
    it does not read: any field other than the six common ones, [vendor]
    when the type is not raw, [price] when the type is not finished. In
    particular an [id] or an [archived] field supplied with the candidate
    goes through validation unnoticed. *)
Theorem validateGoodFormat_unread_field (o : gmap string JsVal) (k : string) (v : JsVal) :
  k ∉ common_fields →
  (k = "vendor" → o !! "type" ≠ Some (JStr "raw")) →
  (k = "price" → o !! "type" ≠ Some (JStr "finished")) →
  validateGoodFormat (JObj (<[k:=v]> o)) = validateGoodFormat (JObj o).
Proof.
  intros Hk Hvendor Hprice. apply validateGoodFormat_same.
  assert (k ≠ "type") as Hktype by (unfold common_fields in Hk; set_solver).
  split; [|split].
  - intros k' Hk'. apply lookup_insert_ne. by intros ->.
  - rewrite lookup_insert_ne by done. intros Hraw.
    apply lookup_insert_ne. intros ->. by apply Hvendor.
  - rewrite lookup_insert_ne by done. intros Hfin.
    apply lookup_insert_ne. intros ->. by apply Hprice.
Qed.

Lemma validateGoodFormat_unread_field_witness :
  validateGoodFormat (JObj (<["archived" := JBool true]> rodFields))
  = validateGoodFormat (JObj rodFields).
Proof.
  apply (validateGoodFormat_unread_field rodFields "archived" (JBool true)).
  - unfold common_fields. intros Hin.
    repeat (apply elem_of_cons in Hin as [Hin|Hin]; [discriminate|]).
    by apply elem_of_nil in Hin.
  - discriminate.
  - discriminate.
Defined.

(** X3: redaction does not change what validation says of a good: the fields
    [cleanUpGood] deletes for a type are fields [validateGoodFormat] does not
    read for that type. *)
Theorem validateGoodFormat_after_cleanUpGood (g g' : JsVal) :
  cleanUpGood g = Return g' → validateGoodFormat g' = validateGoodFormat g.
Proof.
  unfold cleanUpGood. destruct (get g "type") as [t|] eqn:Ht; [|discriminate].
  rewrite bind_Return. intros [= <-].
  pose proof (switch_type_cases t) as Hcase.
  destruct g as [| | | | | |o]; try by destruct (switch_type t).
  simpl in Ht. injection Ht as Ht.
  destruct (switch_type t); try reflexivity; subst t;
    (apply default_undefined_Some in Hcase; [|discriminate]);
    apply validateGoodFormat_same; unfold delete_field;
    (split; [|split]);
    try (intros k Hk; unfold common_fields in Hk;
         rewrite ?lookup_delete_ne; [done|set_solver..]);
    rewrite ?lookup_delete_ne by done; rewrite Hcase; try discriminate;
    intros _; by rewrite ?lookup_delete_ne.
Qed.

Lemma validateGoodFormat_after_cleanUpGood_witness :
  validateGoodFormat (JObj (delete "price" boltFields))
  = validateGoodFormat (JObj boltFields).
Proof.
  apply (validateGoodFormat_after_cleanUpGood (JObj boltFields)).
  vm_compute. reflexivity.
Defined.

(** X5: the types [config.good.types] admits are exactly those for which the
    [switch] statements of the service have a case: no type that validation
    lets through falls past the cases of [addSingleGood] or [cleanUpGood]. *)
Theorem config_types_have_a_case (t : JsVal) :
  includes config.good.types t = true ↔ switch_type t ≠ NoCase.
Proof.
  rewrite includes_types. pose proof (switch_type_cases t) as Hcase. split.
  - intros (s & -> & Hs) Hno. rewrite Hno in Hcase. by destruct (Hcase s Hs).
  - intros Hno. destruct (switch_type t); try done; subst t; eexists;
      (split; [reflexivity|]); unfold config.good.types; set_solver.
Qed.

Lemma validateGoodFormat_returns_witness :
  ∃ b, validateGoodFormat (JObj bikeFields) = Return b.
Proof.
  apply (validateGoodFormat_returns bikeFields).
  - right. eexists. split; [vm_compute; reflexivity|]. repeat constructor.
  - right. eexists. split; [vm_compute; reflexivity|]. repeat constructor.
Defined.

(** ** More on redaction *)

Lemma map_result_Forall2 {A B} (f : A → result B) l l' :
  map_result f l = Return l' ↔ Forall2 (λ x y, f x = Return y) l l'.
Proof.
  revert l'. induction l as [|x l IH]; intros l'; simpl.
  - split; [intros [= <-]; constructor|by intros ->%Forall2_nil_inv_l].
  - split.
    + destruct (f x) as [y|] eqn:Hx; [|discriminate]. rewrite bind_Return.
      destruct (map_result f l) as [ys|] eqn:Hl; [|discriminate].
      rewrite bind_Return. intros [= <-]. constructor; [done|by apply IH].
    + intros (y & ys & Hy & Hys & ->)%Forall2_cons_inv_l.
      apply IH in Hys. by rewrite Hy, bind_Return, Hys.
Qed.

(** X6: [cleanUpGood] throws on [undefined] and [null] and on nothing else. From
    an object it only ever takes away [price] and [vendor]: the object
    returned holds no field the input did not hold, and every field other
    than these two as it was, whatever the type of the good. *)
Theorem cleanUpGood_only_removes :
  (∀ g, is_Throw (cleanUpGood g) ↔ is_nullish g = true)
  ∧ (∀ o : gmap string JsVal,
       ∃ o', cleanUpGood (JObj o) = Return (JObj o')
             ∧ o' ⊆ o
             ∧ ∀ k, k ≠ "price" → k ≠ "vendor" → o' !! k = o !! k).
Proof.
  split.
  - intros g. unfold cleanUpGood. destruct g; simpl; split; done.
  - intros o. unfold cleanUpGood. simpl.
    destruct (switch_type (default JUndefined (o !! "type"))); simpl;
      eexists; (split; [reflexivity|]); split;
      try (intros k Hprice Hvendor; by rewrite ?lookup_delete_ne);
      try done.
    + apply delete_subseteq.
    + etrans; apply delete_subseteq.
    + apply delete_subseteq.
Qed.

(** X7: [cleanUpMultipleOfGoods] returns exactly on an array none of whose
    elements is [undefined] or [null], and then with the array of the
    elements redacted one by one, in the same order. *)
Theorem cleanUpMultipleOfGoods_elementwise (goods r : JsVal) :
  cleanUpMultipleOfGoods goods = Return r
  ↔ ∃ gs gs', goods = JArr gs ∧ r = JArr gs'
              ∧ Forall2 (λ g g', cleanUpGood g = Return g') gs gs'.
Proof.
  unfold cleanUpMultipleOfGoods. split.
  - destruct goods as [| | | | |gs|]; try discriminate. simpl.
    destruct (map_result cleanUpGood gs) as [gs'|] eqn:Hmap; [|discriminate].
    rewrite bind_Return. intros [= <-]. exists gs, gs'.
    by apply map_result_Forall2 in Hmap.
  - intros (gs & gs' & -> & -> & Hall). simpl.
    apply map_result_Forall2 in Hall. by rewrite Hall.
Qed.

(** ** More on the read operations and on archiving *)

Section read_facts.
Context `{Host}.

Lemma world_eta (w : World Db) : {| db := db w; trace := trace w |} = w.
Proof. by destruct w. Qed.

(** X8: [getSingleGood] is never rejected, whatever the repository does. It asks
    the repository for the id once and writes nothing. Its [status] is
    [true] exactly when the lookup produced a truthy value, and its message
    is then that value redacted. A failure of the repository is logged, once,
    with the message of the error, and the envelope carries a text that does
    not depend on the error. *)
Theorem getSingleGood_fulfilled (id : JsVal) (w : World Db) :
  ∃ envelope logs,
    getSingleGood id w
    = (Return envelope, {| db := db w; trace := trace w ++ CallFindById id :: logs |})
    ∧ match GoodModel_findById id (db w) with
      | Return g =>
          logs = []
          ∧ if truthy g
            then status envelope = true ∧ cleanUpGood g = Return (message envelope)
            else envelope
                 = {| status := false;
                      message := JStr ("Good with id: " +:+ ToString id +:+ " not found");
                      good := None |}
      | Throw e =>
          logs = [LogError ("Failed to get good by id with id: " +:+ ToString id)
                           ["good"; "find"; "id"] (exn_message e)]
          ∧ envelope
            = {| status := false;
                 message := JStr ("Failed while getting good with id " +:+ ToString id);
                 good := None |}
      end.
Proof.
  unfold getSingleGood, try_catch, mbind, mret, M_bind, M_ret, call_findById, emit,
    record.
  simpl. destruct (GoodModel_findById id (db w)) as [g|e].
  - destruct (truthy g) eqn:Hg.
    + destruct (cleanUpGood_truthy g Hg) as [g' Hg'].
      unfold lift. rewrite Hg'. simpl. eexists _, []. done.
    + simpl. eexists _, []. done.
  - simpl. eexists _, [_]. rewrite <-app_assoc. done.
Qed.

(** The three operations that read a list of goods share one shape; this is
    what it comes to, for the call [fetch] they make, the event [call] that
    records it, and the texts [logged] and [told] of their [catch]. *)
Lemma list_read_outcome (fetch : Db → result JsVal) (call : Event)
    (logged told : string) (tags : list string) (w : World Db) :
  ∃ envelope,
    try_catch
      (goods ← (λ w0, (fetch (db w0), record call w0)) : Async JsVal;
       cleaned ← lift (cleanUpMultipleOfGoods goods);
       mret {| status := true; message := cleaned; good := None |})
      (λ e, emit (LogError logged tags (exn_message e));;
            mret {| status := false; message := JStr told; good := None |}) w
    = (Return envelope,
       {| db := db w;
          trace := trace w ++ call ::
                   match fetch (db w) ≫= cleanUpMultipleOfGoods with
                   | Return _ => []
                   | Throw e => [LogError logged tags (exn_message e)]
                   end |})
    ∧ envelope
      = match fetch (db w) ≫= cleanUpMultipleOfGoods with
        | Return cleaned => {| status := true; message := cleaned; good := None |}
        | Throw _ => {| status := false; message := JStr told; good := None |}
        end.
Proof.
  unfold try_catch, mbind at 1 2 3, mret, M_bind, M_ret, emit, record, lift. simpl.
  destruct (fetch (db w)) as [goods|e]; simpl.
  - destruct (cleanUpMultipleOfGoods goods) as [cleaned|e]; simpl.
    + eexists. done.
    + eexists. rewrite <-app_assoc. done.
  - eexists. rewrite <-app_assoc. done.
Qed.

(** X9: [getAllGoods] is never rejected. It asks the repository once and writes
    nothing. When the repository yields an array that can be redacted, the
    envelope has [status] [true] and the redacted array; when the repository
    fails, or yields something that is not an array, or an array with a
    [null] row, the envelope is the same failure envelope and the error is
    logged once. *)
Theorem getAllGoods_fulfilled (w : World Db) :
  ∃ envelope logs,
    getAllGoods w
    = (Return envelope, {| db := db w; trace := trace w ++ CallGetAllGoods :: logs |})
    ∧ match GoodModel_getAllGoods (db w) ≫= cleanUpMultipleOfGoods with
      | Return cleaned =>
          logs = [] ∧ envelope = {| status := true; message := cleaned; good := None |}
      | Throw e =>
          logs = [LogError "Failed to get all goods" ["good"; "find"; "good"]
                           (exn_message e)]
          ∧ envelope = {| status := false;
                          message := JStr "Failed while getting all goods";
                          good := None |}
      end.
Proof.
  destruct (list_read_outcome GoodModel_getAllGoods CallGetAllGoods
              "Failed to get all goods" "Failed while getting all goods"
              ["good"; "find"; "good"] w) as (envelope & Hrun & Henv).
  eexists envelope, _. split; [exact Hrun|].
  by destruct (GoodModel_getAllGoods (db w) ≫= cleanUpMultipleOfGoods).
Qed.

(** X10: [getAllGoodsOfType] and [getAllArchivedGoodsOfType] are never rejected
    and differ in the flag they pass to the repository and in their texts
    only: each asks once, for the type as given (no check that it is one of
    the three), writes nothing, and returns the redacted array or, on any
    failure, its failure envelope with the error logged once. *)
Theorem getGoodsOfType_fulfilled (type : JsVal) (archived : bool) (w : World Db) :
  ∃ envelope logs,
    (if archived then getAllArchivedGoodsOfType type else getAllGoodsOfType type) w
    = (Return envelope,
       {| db := db w; trace := trace w ++ CallGetByType type archived :: logs |})
    ∧ match GoodModel_getByType type archived (db w) ≫= cleanUpMultipleOfGoods with
      | Return cleaned =>
          logs = [] ∧ envelope = {| status := true; message := cleaned; good := None |}
      | Throw e =>
          status envelope = false
          ∧ good envelope = None
          ∧ message envelope
            = JStr ((if archived then "Failed while getting archived goods with type "
                     else "Failed while getting goods with type ") +:+ ToString type)
          ∧ ∃ logged tags, logs = [LogError logged tags (exn_message e)]
      end.
Proof.
  destruct archived.
  - destruct (list_read_outcome (GoodModel_getByType type true)
                (CallGetByType type true)
                ("Failed to get archived goods by type with type: " +:+ ToString type)
                ("Failed while getting archived goods with type " +:+ ToString type)
                ["good"; "find"; "type"; "archive"] w) as (envelope & Hrun & Henv).
    eexists envelope, _. split; [exact Hrun|].
    destruct (GoodModel_getByType type true (db w) ≫= cleanUpMultipleOfGoods);
      subst envelope; eauto 10.
  - destruct (list_read_outcome (GoodModel_getByType type false)
                (CallGetByType type false)
                ("Failed to get goods by type with type: " +:+ ToString type)
                ("Failed while getting goods with type " +:+ ToString type)
                ["good"; "find"; "type"] w) as (envelope & Hrun & Henv).
    eexists envelope, _. split; [exact Hrun|].
    destruct (GoodModel_getByType type false (db w) ≫= cleanUpMultipleOfGoods);
      subst envelope; eauto 10.
Qed.


End read_facts.

(** ** More on the create path *)

Section create_facts.
Context `{Host}.

Lemma saves_app t1 t2 : saves (t1 ++ t2) = saves t1 ++ saves t2.
Proof. apply omap_app. Qed.

Lemma saves_reads evs : Forall (λ e, is_write e = false) evs → saves evs = [].
Proof.
  intros Hreads. apply omap_all_None. eapply Forall_impl; [exact Hreads|].
  intros [] ?; done.
Qed.

Lemma getSingleGood_reads id w :
  ∃ envelope evs,
    getSingleGood id w = (Return envelope, {| db := db w; trace := trace w ++ evs |})
    ∧ Forall (λ e, is_write e = false) evs.
Proof.
  unfold getSingleGood, try_catch, mbind, mret, M_bind, M_ret, call_findById, emit,
    record.
  simpl. destruct (GoodModel_findById id (db w)) as [g|e].
  - destruct (truthy g) eqn:Hg.
    + destruct (cleanUpGood_truthy g Hg) as [g' Hg'].
      unfold lift. rewrite Hg'. simpl. eexists _, [_]. split; [done|].
      by repeat constructor.
    + simpl. eexists _, [_]. split; [done|]. by repeat constructor.
  - simpl. eexists _, [_; _]. rewrite <-app_assoc. split; [done|].
    by repeat constructor.
Qed.

Lemma run_check_tasks_reads ids order w invalid :
  ∃ outs evs invalid',
    run_tasks (map check_task ids) order (w, invalid)
    = (outs, ({| db := db w; trace := trace w ++ evs |}, invalid'))
    ∧ Forall (λ e, is_write e = false) evs.
Proof.
  revert w invalid. induction order as [|i order IH]; intros w invalid; simpl.
  - exists [], [], invalid. by rewrite app_nil_r, world_eta.
  - rewrite list_lookup_fmap. destruct (ids !! i) as [id|]; simpl; [|apply IH].
    destruct (getSingleGood_reads id w) as (envelope & evs & Hget & Hevs).
    unfold check_task at 1, mbind, M_bind, zoom. simpl. rewrite Hget.
    set (w1 := {| db := db w; trace := trace w ++ evs |}).
    assert (∃ invalid1,
              (if negb (status envelope) then push id else mret ()) (w1, invalid)
              = (Return (), (w1, invalid1))) as [invalid1 ->]
      by (destruct (negb (status envelope)); eexists; reflexivity).
    destruct (IH w1 invalid1) as (outs & evs' & invalid' & -> & Hevs').
    simpl. eexists _, (evs ++ evs'), invalid'. rewrite app_assoc.
    split; [done|]. by apply Forall_app.
Qed.

Lemma checkIfComponentExists_reads (components : JsVal) (w : World Db) :
  ∃ r evs,
    checkIfComponentExists components w
    = (r, {| db := db w; trace := trace w ++ evs |})
    ∧ Forall (λ e, is_write e = false) evs.
Proof.
  unfold checkIfComponentExists, mbind at 1 2 3 4, M_bind, lift, get_state.
  destruct (array_method "components" "map" components) as [elements|e];
    [|exists (Throw e), []; by rewrite app_nil_r, world_eta].
  destruct (map_result (λ c, get c "id") elements) as [onlyId|e];
    [|exists (Throw e), []; by rewrite app_nil_r, world_eta].
  unfold with_local, promise_all.
  destruct (run_check_tasks_reads onlyId (settle w (length onlyId)) w [])
    as (outs & evs & invalid & -> & Hevs).
  destruct (head (omap rejection outs)); simpl; eauto.
Qed.

(** What an accepted candidate tells of its type. *)
Lemma validateGoodFormat_true_type good :
  validateGoodFormat good = Return true →
  ∃ type, get good "type" = Return (JStr type) ∧ type ∈ config.good.types.
Proof.
  unfold validateGoodFormat.
  destruct (get good "name") as [name|]; [|discriminate].
  destruct (get good "type") as [type|]; [|discriminate].
  destruct (get good "processTime") as [processTime|]; [|discriminate].
  destruct (get good "cost") as [cost|]; [|discriminate].
  rewrite !bind_Return.
  destruct (includes config.good.types type) eqn:Hin;
    [|by rewrite !orb_true_r].
  apply includes_types in Hin as (s & -> & Hs). eauto.
Qed.

(** The last stage, for a good whose type has a case: one save through the
    model of the type; the envelope and the log tell how the save settled. *)
Lemma saveGood_outcome good type model w :
  get good "type" = Return type →
  model_of (switch_type type) = Some model →
  ∃ envelope logged,
    saveGood good w
    = (Return envelope,
       {| db := (Model_save model good (db w)).2;
          trace := trace w ++ [CallSave model good; logged] |})
    ∧ is_write logged = false
    ∧ envelope
      = match (Model_save model good (db w)).1 with
        | Return _ => {| status := true; message := JStr "Successfully saved new good";
                         good := Some good |}
        | Throw _ => {| status := false; message := JStr "Failed while saving good";
                        good := Some good |}
        end.
Proof.
  intros Htype Hmodel.
  unfold saveGood, try_catch, mbind, mret, M_bind, M_ret, lift, emit, call_save, record.
  rewrite Htype.
  destruct (switch_type type); simpl in Hmodel; try discriminate;
    injection Hmodel as <-;
    destruct (Model_save _ good (db w)) as [[r|e] d]; simpl;
    eexists _, _; rewrite <-app_assoc; done.
Qed.

(** X12: [checkIfComponentExists] only reads: whatever it is given and however it
    ends, the repository's contents are as they were and no save and no
    archive call was added to what was asked of the repository. *)
Theorem checkIfComponentExists_only_reads (components : JsVal) (w : World Db) :
  ∃ r w',
    checkIfComponentExists components w = (r, w')
    ∧ db w' = db w
    ∧ filter (λ e, is_write e) (trace w') = filter (λ e, is_write e) (trace w).
Proof.
  destruct (checkIfComponentExists_reads components w) as (r & evs & -> & Hevs).
  eexists _, _. split; [reflexivity|]. split; [reflexivity|]. simpl.
  rewrite filter_app.
  assert (filter (λ e, is_write e) evs = []) as ->; [|by rewrite app_nil_r].
  induction Hevs as [|e evs He _ IH]; [done|].
  rewrite filter_cons_False; [done|]. by apply Is_true_false.
Qed.

(** X13: when a component does not resolve, [addSingleGood] stops before the
    save: it is fulfilled with the failure envelope that names the ids
    reported by the check, joined by [", "], and carries the candidate; the
    repository's contents are as they were and nothing was saved. *)
Theorem addSingleGood_missing_component
    (good : JsVal) (cs ids : list JsVal) (w : World Db) :
  settles_all →
  validateGoodFormat good = Return true →
  get good "components" = Return (JArr cs) →
  map_result (λ c, get c "id") cs = Return ids →
  Exists (λ id, unresolved (db w) id = true) ids →
  ∃ invalid w',
    addSingleGood good w
    = (Return {| status := false;
                 message := JStr ("Failed to save component: " +:+ join ", " invalid
                                  +:+ " does not exist");
                 good := Some good |}, w')
    ∧ invalid ≡ₚ filter (λ id, unresolved (db w) id) ids
    ∧ db w' = db w
    ∧ saves (trace w') = saves (trace w).
Proof.
  intros Hsettle Hvalid Hcomps Hids Hmissing.
  destruct (checkIfComponentExists_settled cs ids w Hsettle Hids)
    as (invalid & w' & Hrun & Hdb & _ & Hinvalid).
  destruct (checkIfComponentExists_reads (JArr cs) w) as (r & evs & Hrun' & Hevs).
  rewrite Hrun in Hrun'. injection Hrun' as <- ->.
  exists invalid, {| db := db w; trace := trace w ++ evs |}.
  assert (0 < length invalid) as Hlen.
  { rewrite Hinvalid. apply Exists_exists in Hmissing as (id & Hin & Hid).
    assert (id ∈ filter (λ id, unresolved (db w) id) ids) as Hfil
      by (apply list_elem_of_filter; split; [by apply Is_true_true|done]).
    destruct (filter _ ids); [by apply not_elem_of_nil in Hfil|simpl; lia]. }
  split; [|split; [done|split; [done|]]].
  - unfold addSingleGood, mbind, M_bind, lift. rewrite Hvalid. simpl.
    rewrite Hcomps. simpl. rewrite Hrun. by rewrite bool_decide_true.
  - simpl. by rewrite saves_app, (saves_reads evs Hevs), app_nil_r.
Qed.

Lemma none_unresolved (ids : list JsVal) (order : list nat) (d : Db) :
  Forall (λ id, unresolved d id = false) ids →
  filter (λ id, unresolved d id) (omap (ids !!.) order) = [].
Proof.
  intros Hall. induction order as [|i order IH]; [done|]. simpl.
  destruct (ids !! i) as [id|] eqn:Hi; [|exact IH].
  rewrite filter_cons_False; [exact IH|].
  eapply Forall_lookup_1 in Hall; [|exact Hi]. by apply Is_true_false.
Qed.

(** X14: when an accepted candidate has no components to check, or components
    that all resolve, [addSingleGood] saves it, once, through the model of
    its type, and is fulfilled whichever way the save settles: with the
    success envelope when the save is fulfilled, with the failure envelope
    of the last stage when it is rejected. Either envelope carries the
    candidate. *)
Theorem addSingleGood_saves_once (good components : JsVal) (w : World Db) :
  validateGoodFormat good = Return true →
  get good "components" = Return components →
  (truthy components = false
   ∨ ∃ cs ids, components = JArr cs
               ∧ map_result (λ c, get c "id") cs = Return ids
               ∧ Forall (λ id, unresolved (db w) id = false) ids) →
  ∃ type model envelope w',
    get good "type" = Return (JStr type)
    ∧ model_of (switch_type (JStr type)) = Some model
    ∧ addSingleGood good w = (Return envelope, w')
    ∧ saves (trace w') = saves (trace w) ++ [(model, good)]
    ∧ db w' = (Model_save model good (db w)).2
    ∧ envelope
      = match (Model_save model good (db w)).1 with
        | Return _ => {| status := true; message := JStr "Successfully saved new good";
                         good := Some good |}
        | Throw _ => {| status := false; message := JStr "Failed while saving good";
                        good := Some good |}
        end.
Proof.
  intros Hvalid Hcomps Hresolved.
  destruct (validateGoodFormat_true_type good Hvalid) as (type & Htype & Hin).
  assert (∃ model, model_of (switch_type (JStr type)) = Some model) as [model Hmodel].
  { unfold config.good.types in Hin.
    assert (type = "raw" ∨ type = "semi-finished" ∨ type = "finished")
      as [-> | [-> | ->]] by set_solver; simpl; eauto. }
  exists type, model.
  assert (∃ evs, Forall (λ e, is_write e = false) evs
                 ∧ addSingleGood good w
                   = saveGood good {| db := db w; trace := trace w ++ evs |})
    as (evs & Hevs & ->).
  { unfold addSingleGood, mbind, M_bind, lift. rewrite Hvalid. simpl.
    rewrite Hcomps. simpl.
    destruct Hresolved as [-> | (cs & ids & -> & Hids & Hall)].
    - exists []. split; [done|]. by rewrite app_nil_r, world_eta.
    - simpl.
      destruct (checkIfComponentExists_outcome cs ids w Hids) as (w' & Hrun & _).
      destruct (checkIfComponentExists_reads (JArr cs) w) as (r & evs & Hrun' & Hevs).
      rewrite Hrun in Hrun'. injection Hrun' as <- ->. rewrite Hrun.
      rewrite (none_unresolved ids _ _ Hall). simpl. eauto. }
  destruct (saveGood_outcome good (JStr type) model
              {| db := db w; trace := trace w ++ evs |} Htype Hmodel)
    as (envelope & logged & -> & Hlogged & ->).
  eexists _, _. split; [exact Htype|]. split; [exact Hmodel|].
  split; [reflexivity|]. split; [|split; reflexivity]. simpl.
  rewrite !saves_app, (saves_reads evs Hevs), app_nil_r. simpl.
  destruct logged; try discriminate; reflexivity.
Qed.

End create_facts.

(** X17: whatever the order in which the lookups complete,
    [checkIfComponentExists] is fulfilled and reports no id but the id of a
    reference whose lookup produced no good. *)
Theorem checkIfComponentExists_reports_only_failures `{Host}
    (cs ids : list JsVal) (w : World Db) :
  map_result (λ c, get c "id") cs = Return ids →
  ∃ invalid w',
    checkIfComponentExists (JArr cs) w = (Return invalid, w')
    ∧ ∀ id, id ∈ invalid →
            id ∈ ids ∧ (not_found (db w) id ∨ lookup_error (db w) id).
Proof.
  intros Hids.
  destruct (checkIfComponentExists_outcome cs ids w Hids) as (w' & Hrun & _).
  eexists _, w'. split; [exact Hrun|].
  intros id [Hid Hin]%list_elem_of_filter.
  apply list_elem_of_omap in Hin as (i & _ & Hi). split.
  - by eapply list_elem_of_lookup_2.
  - apply unresolved_iff. by apply Is_true_true.
Qed.

(** ** The additional theorems at sample inputs *)

Lemma checkIfComponentExists_reports_only_failures_witness :
  ∃ invalid w',
    @checkIfComponentExists hostEmptyReversed
      (JArr [component 98 1; component 99 1]) start = (Return invalid, w')
    ∧ ∀ id, id ∈ invalid →
            id ∈ [JNum 98; JNum 99]
            ∧ (@not_found hostEmptyReversed () id ∨ @lookup_error hostEmptyReversed () id).
Proof.
  apply (@checkIfComponentExists_reports_only_failures hostEmptyReversed
           [component 98 1; component 99 1] [JNum 98; JNum 99] start).
  vm_compute. reflexivity.
Defined.

Lemma addSingleGood_missing_component_witness :
  ∃ invalid w',
    @addSingleGood hostEmpty (JObj bikeFields) start
    = (Return {| status := false;
                 message := JStr ("Failed to save component: "
                                  +:+ @join hostEmpty ", " invalid
                                  +:+ " does not exist");
                 good := Some (JObj bikeFields) |}, w')
    ∧ invalid ≡ₚ filter (λ id, @unresolved hostEmpty () id) [JNum 7]
    ∧ db w' = ()
    ∧ saves (trace w') = [].
Proof.
  apply (@addSingleGood_missing_component hostEmpty (JObj bikeFields)
           [obj [("id", JNum 7); ("quantity", JNum 2)]] [JNum 7] start).
  - apply in_order_settles_all.
  - vm_compute. reflexivity.
  - vm_compute. reflexivity.
  - vm_compute. reflexivity.
  - apply Exists_cons_hd. vm_compute. reflexivity.
Defined.

Lemma addSingleGood_saves_once_witness :
  ∃ type model envelope w',
    get (JObj bikeFields) "type" = Return (JStr type)
    ∧ model_of (switch_type (JStr type)) = Some model
    ∧ @addSingleGood host7 (JObj bikeFields) start = (Return envelope, w')
    ∧ saves (trace w') = saves (trace start) ++ [(model, JObj bikeFields)]
    ∧ db w' = (@Model_save host7 model (JObj bikeFields) ()).2
    ∧ envelope
      = match (@Model_save host7 model (JObj bikeFields) ()).1 with
        | Return _ => {| status := true; message := JStr "Successfully saved new good";
                         good := Some (JObj bikeFields) |}
        | Throw _ => {| status := false; message := JStr "Failed while saving good";
                        good := Some (JObj bikeFields) |}
        end.
Proof.
  apply (@addSingleGood_saves_once host7 (JObj bikeFields)
           (JArr [obj [("id", JNum 7); ("quantity", JNum 2)]]) start).
  - vm_compute. reflexivity.
  - vm_compute. reflexivity.
  - right. exists [obj [("id", JNum 7); ("quantity", JNum 2)]], [JNum 7].
    split; [reflexivity|]. split; [vm_compute; reflexivity|].
    constructor; [vm_compute; reflexivity|constructor].
Defined.

Lemma addBulkGoods_one_result_per_candidate_witness :
  ∃ results w',
    @addBulkGoods hostEmpty (JArr [steelRod; freeRod]) start = (Return results, w')
    ∧ Forall2 (λ c r, good r = Some c
                      ∧ ∃ w1 w2, @addSingleGood hostEmpty c w1 = (Return r, w2))
              [steelRod; freeRod] results.
Proof.
  apply (@addBulkGoods_one_result_per_candidate hostEmpty [steelRod; freeRod] start).
  - apply in_order_settles_all.
  - repeat constructor; vm_compute; intros [].
Defined.

